(** * Run recorder and encounter deduplicator of the Pokerogue tracker

    A shallow embedding of [background.js]: the tracker ([startRun],
    [endRun], [logEncounterFromSession]), the overlay ([sortById],
    [appendPokemonArrayToDiv]), the [runtime.onMessage] and
    [webRequest.onBeforeRequest] listeners, and the callbacks of the popup,
    followed by the properties of the run/encounter capture model.

    The module-level variables of the script become the fields of [State];
    every function is a computation in [Exec], which threads the state,
    collects the console and download effects in order and propagates a
    thrown [TypeError]. *)

From Stdlib Require Import Ascii String.
From stdpp Require Import gmap strings list pretty sorting.

#[local] Set Warnings "-register-all".
#[local] Open Scope string_scope.
#[local] Open Scope list_scope.

(** ** JavaScript values *)

Module Js.

(** The values the tracker handles: what [JSON.parse] and the message
    channel deliver.  Numbers are the integers a double holds exactly and
    prints in plain decimal (wave counters, levels, species codes: the
    magnitudes up to 2^53) and [NaN]; larger, fractional and infinite
    doubles are left out.  An object is the map of its own properties, all
    of them enumerable data properties; its prototype is
    [Object.prototype], an array's is [Array.prototype], and no property
    is callable. *)
Inductive Val : Type :=
| JUndefined
| JNull
| JBool (b : bool)
| JNum (z : Z)
| JNaN
| JStr (s : string)
| JArr (items : list Val)
| JObj (props : gmap string Val).

(** ToBoolean *)
Definition truthy (v : Val) : bool :=
  match v with
  | JUndefined | JNull | JNaN => false
  | JBool b => b
  | JNum z => negb (z =? 0)%Z
  | JStr s => negb (String.eqb s EmptyString)
  | JArr _ | JObj _ => true
  end.

Definition typeof (v : Val) : string :=
  match v with
  | JUndefined => "undefined"
  | JNull | JArr _ | JObj _ => "object"
  | JBool _ => "boolean"
  | JNum _ | JNaN => "number"
  | JStr _ => "string"
  end.

(** [a || b] and [a && b] *)
Definition or_else (a b : Val) : Val := if truthy a then a else b.
Definition and_then (a b : Val) : Val := if truthy a then b else a.

Definition nullish (v : Val) : bool :=
  match v with JUndefined | JNull => true | _ => false end.

(** [a === b] on primitives.  Arrays and objects are compared by identity,
    which a value does not carry; the tracker never compares them. *)
Definition strict_eq (a b : Val) : bool :=
  match a, b with
  | JUndefined, JUndefined | JNull, JNull => true
  | JBool x, JBool y => Bool.eqb x y
  | JNum x, JNum y => (x =? y)%Z
  | JStr x, JStr y => String.eqb x y
  | _, _ => false
  end.

(** [o[k]] for an object [o] held as its property map. *)
Definition field (o : gmap string Val) (k : string) : Val :=
  default JUndefined (o !! k).

(** [v.k] for a value that is neither [null] nor [undefined], and a name
    [k] that is no array index and no built-in property ([enemyParty],
    [waveIndex], [species], [level]): primitives and arrays have none. *)
Definition get (v : Val) (k : string) : Val :=
  match v with
  | JObj o => field o k
  | _ => JUndefined
  end.

(** [Array.isArray(v) && v.length !== 0], with the first element. *)
Definition head_of_array (v : Val) : option Val :=
  match v with
  | JArr (x :: _) => Some x
  | _ => None
  end.

(** ToString, as a template literal applies it; [None] when it throws a
    [TypeError].  An object is converted by the [toString] it finds: the
    one of [Object.prototype] unless it has an own property of that name,
    which no value here makes callable; [valueOf] then gives no primitive
    either, and the conversion throws.  An array is converted by
    [Array.prototype.join], which converts each element that is neither
    [null] nor [undefined]. *)
Fixpoint to_string (v : Val) : option string :=
  match v with
  | JUndefined => Some "undefined"
  | JNull => Some "null"
  | JBool true => Some "true"
  | JBool false => Some "false"
  | JNum z => Some (pretty z)
  | JNaN => Some "NaN"
  | JStr s => Some s
  | JArr items =>
      (fix join (l : list Val) : option string :=
         match l with
         | [] => Some EmptyString
         | x :: r =>
             match (if nullish x then Some EmptyString else to_string x) with
             | None => None
             | Some sx =>
                 match r with
                 | [] => Some sx
                 | _ :: _ =>
                     match join r with
                     | None => None
                     | Some sr => Some (sx +:+ "," +:+ sr)
                     end
                 end
             end
         end) items
  | JObj props =>
      match props !! "toString" with
      | Some _ => None
      | None => Some "[object Object]"
      end
  end.

(** [s.padStart(n, "0")] *)
Definition padStart0 (n : nat) (s : string) : string :=
  String.concat EmptyString (replicate (n - String.length s) "0") +:+ s.

(** [s.replace(/[:]/g, "-")] *)
Fixpoint replace_colons (s : string) : string :=
  match s with
  | EmptyString => EmptyString
  | String c r =>
      String (if Ascii.eqb c ":"%char then "-"%char else c) (replace_colons r)
  end.

(** The own enumerable properties [Object.assign] reads from a source
    whose [typeof] is ["object"]: the properties of an object, the
    elements of an array under their indices. *)
Definition own_enumerable (src : Val) : gmap string Val :=
  match src with
  | JObj o => o
  | JArr items => list_to_map (imap (λ i x, (pretty i, x)) items)
  | _ => ∅
  end.

(** [Object.assign(target, src)] on a [target] whose prototype is
    [Object.prototype]: every own enumerable property of [src] is
    assigned to [target], the other properties of [target] stay.  The
    assignment is [[Set]], which creates or overwrites an own property of
    [target] for every key but one: for [__proto__], unless [target] has
    an own property of that name, it ends in the accessor of
    [Object.prototype], which replaces the prototype of [target] when the
    value is an object or [null] and does nothing otherwise; in both cases
    [target] gets no property. *)
Definition assign (target : gmap string Val) (src : Val) : gmap string Val :=
  let props := own_enumerable src in
  match target !! "__proto__" with
  | Some _ => props ∪ target
  | None => delete "__proto__" props ∪ target
  end.

End Js.

Import Js.

(** ** Tracking state, effects and computations *)

(** One element of [encounterBuffer]: the object literal pushed by
    [logEncounterFromSession]. *)
Record Encounter : Type := {
  encounter_id : string;
  battle_index : Z;
  enemy_species : Val;
  enemy_type1 : Val;
  enemy_type2 : Val;
  enemy_level : Val;
  is_boss : bool;
  encounter_result : Val;
  enemy_ended_run : bool;
  notes : Val
}.

(** The run document [{ run, encounters }] handed to [JSON.stringify]. *)
Record Payload : Type := {
  run : gmap string Val;
  encounters : list Encounter
}.

(** The module-level tracking variables.  [currentRun] is [null] or the run
    object, held as the map of its own properties because [endRun] merges
    arbitrary keys into it.  Its prototype is the one of the object literal
    of [startRun], [Object.prototype]; metadata whose [__proto__] key holds
    an object or [null] replaces it, which nothing the tracker reads
    observes ([run_id] is an own property from [startRun] on, and
    [JSON.stringify] writes own properties only) and the state does not
    record: only a second [__proto__] key, merged into the same run after
    an [endRun] that threw, would be assigned differently.  [battleIndex]
    is a counter from 0 (exact in a double below 2^53). *)
Record State : Type := {
  currentRun : option (gmap string Val);
  encounterBuffer : list Encounter;
  battleIndex : Z;
  lastLoggedWaveIndex : Val
}.

(** The state the script is loaded with, and [endRun] returns to. *)
Definition idle : State :=
  {| currentRun := None; encounterBuffer := [];
     battleIndex := 0; lastLoggedWaveIndex := JNull |}.

(** The object literal assigned to [currentRun] by [startRun]. *)
Definition new_run (now : string) : gmap string Val :=
  <["run_id" := JStr ("run_" +:+ now)]>
  (<["start_timestamp" := JStr now]>
  (<["end_timestamp" := JNull]>
  (<["result" := JNull]>
  (<["final_stage" := JNull]>
  (<["final_boss" := JNull]>
  (<["starter_species" := JNull]>
  (<["total_battles" := JNull]>
  (<["run_tag" := JNull]> ∅)))))))).

Record DownloadOptions : Type := {
  url : string;
  filename : string;
  saveAs : bool
}.

(** What a handler does to the outside, in order.  The callback of
    [downloads.download] runs later, outside the handler, and only logs. *)
Inductive Effect : Type :=
| ConsoleLog (args : list Val)
| ConsoleWarn (args : list Val)
| Download (opts : DownloadOptions).

Inductive Completion (A : Type) : Type :=
| Returned (a : A)
| Thrown (error : string).
Arguments Returned {A} a.
Arguments Thrown {A} error.

(** A computation: from the state to how it completes, the state it leaves
    (also when it throws: what was assigned before stays assigned) and the
    effects it had. *)
Definition Exec (A : Type) : Type :=
  State → Completion A * State * list Effect.

#[global] Instance Exec_ret : MRet Exec := λ A a st, (Returned a, st, []).

#[global] Instance Exec_bind : MBind Exec := λ A B k m st,
  match m st with
  | (Returned a, st1, out1) =>
      let '(c, st2, out2) := k a st1 in (c, st2, out1 ++ out2)
  | (Thrown e, st1, out1) => (Thrown e, st1, out1)
  end.

Definition throw {A} (e : string) : Exec A := λ st, (Thrown e, st, []).
Definition read : Exec State := λ st, (Returned st, st, []).
Definition write (st : State) : Exec unit := λ _, (Returned tt, st, []).
Definition effect (e : Effect) : Exec unit := λ st, (Returned tt, st, [e]).

Definition completion {A} (r : Completion A * State * list Effect) := r.1.1.
Definition final {A} (r : Completion A * State * list Effect) := r.1.2.
Definition effects {A} (r : Completion A * State * list Effect) := r.2.

(** The download requests among the effects. *)
Definition downloads (out : list Effect) : list DownloadOptions :=
  omap (λ e, match e with Download d => Some d | _ => None end) out.

(** The console warnings among the effects. *)
Definition warnings (out : list Effect) : list (list Val) :=
  omap (λ e, match e with ConsoleWarn a => Some a | _ => None end) out.

(** ** The tracker *)

Section Tracker.

(** Collaborators outside the script, taken as total functions: the
    species lookup of [Utils], and the two library functions that turn the
    run document into the text of the data URL. *)
Variable convertPokemonId : Val → Val.
Variable JSON_stringify : Payload → string.
Variable encodeURIComponent : string → string.

(** [startRun()], with the [new Date().toISOString()] it reads. *)
Definition startRun (now : string) : Exec unit :=
  let currentRun' := new_run now in
  write {| currentRun := Some currentRun';
           encounterBuffer := [];
           battleIndex := 0;
           lastLoggedWaveIndex := JNull |};;
  effect (ConsoleLog [JStr "Pokerogue tracker: started run";
                      field currentRun' "run_id"]).

(** The data URL built from the run document. *)
Definition dataUrl (payload : Payload) : string :=
  "data:application/json;charset=utf-8," +:+
  encodeURIComponent (JSON_stringify payload).

(** [currentRun.run_id.replace(/[:]/g, "-")]: only a string has a
    [replace] to call. *)
Definition safeRunId (run_id : Val) : Exec string :=
  match run_id with
  | JStr s => mret (replace_colons s)
  | _ => throw "TypeError"
  end.

(** The run object after the three assignments of [endRun]: the end
    stamp, the merge of the metadata, the battle count. *)
Definition stamp_and_merge (now : string) (runMeta : Val)
    (buffer : list Encounter) (r : gmap string Val) : gmap string Val :=
  let r := <["end_timestamp" := JStr now]> r in
  let r :=
    if truthy runMeta && String.eqb (typeof runMeta) "object"
    then assign r runMeta else r in
  <["total_battles" := JNum (Z.of_nat (length buffer))]> r.

(** [endRun(runMeta)] *)
Definition endRun (now : string) (runMeta : Val) : Exec unit :=
  st ← read;
  match currentRun st with
  | None =>
      effect (ConsoleWarn
        [JStr "Pokerogue tracker: endRun called but no active run"])
  | Some r =>
      let r := stamp_and_merge now runMeta (encounterBuffer st) r in
      write {| currentRun := Some r;
               encounterBuffer := encounterBuffer st;
               battleIndex := battleIndex st;
               lastLoggedWaveIndex := lastLoggedWaveIndex st |};;
      let payload := {| run := r; encounters := encounterBuffer st |} in
      safe ← safeRunId (field r "run_id");
      effect (Download {| url := dataUrl payload;
                          filename := "pokerogue_runs/" +:+ safe +:+ ".json";
                          saveAs := false |});;
      effect (ConsoleLog [JStr "Pokerogue tracker: ended run";
                          field r "run_id";
                          JStr "with";
                          JNum (Z.of_nat (length (encounterBuffer st)));
                          JStr "encounters"]);;
      write idle
  end.

(** [typeof sessionData.waveIndex === "number" ? sessionData.waveIndex : null] *)
Definition waveIndex_of (sessionData : Val) : Val :=
  let w := get sessionData "waveIndex" in
  if String.eqb (typeof w) "number" then w else JNull.

(** [waveIndex !== null && waveIndex === lastLoggedWaveIndex] *)
Definition same_wave (waveIndex last : Val) : bool :=
  negb (strict_eq waveIndex JNull) && strict_eq waveIndex last.

(** [x.k] where [x] may be [null] or [undefined]. *)
Definition member (x : Val) (k : string) : Exec Val :=
  if nullish x then throw "TypeError" else mret (get x k).

(** [`${v}`]: the substitution of a template literal. *)
Definition substitution (v : Val) : Exec string :=
  match to_string v with
  | Some s => mret s
  | None => throw "TypeError"
  end.

(** [logEncounterFromSession(sessionData)] *)
Definition logEncounterFromSession (sessionData : Val) : Exec unit :=
  st ← read;
  match currentRun st with
  | None => mret tt
  | Some r =>
      if negb (truthy sessionData) then mret tt else
      match head_of_array (get sessionData "enemyParty") with
      | None => mret tt
      | Some firstEnemy =>
          let waveIndex := waveIndex_of sessionData in
          if same_wave waveIndex (lastLoggedWaveIndex st) then mret tt else
          species ← member firstEnemy "species";
          let pokemonId := convertPokemonId species in
          run_id ← substitution (field r "run_id");
          let encounterId :=
            run_id +:+ "_" +:+ padStart0 3 (pretty (battleIndex st)) in
          level ← member firstEnemy "level";
          effect (ConsoleLog [JStr "Pokerogue tracker: logging encounter";
                              JStr encounterId;
                              JStr "waveIndex:"; waveIndex;
                              JStr "enemy_species:"; pokemonId;
                              JStr "enemy_level:"; level]);;
          write {| currentRun := currentRun st;
                   encounterBuffer := encounterBuffer st ++
                     [{| encounter_id := encounterId;
                         battle_index := battleIndex st;
                         enemy_species := pokemonId;
                         enemy_type1 := JNull;
                         enemy_type2 := JNull;
                         enemy_level := or_else level JNull;
                         is_boss := false;
                         encounter_result := JNull;
                         enemy_ended_run := false;
                         notes := JNull |}];
                   battleIndex := battleIndex st + 1;
                   lastLoggedWaveIndex :=
                     if negb (strict_eq waveIndex JNull)
                     then waveIndex else lastLoggedWaveIndex st |}
      end
  end.

(** The two requests the popup sends. *)
Inductive Request : Type :=
| START_RUN
| END_RUN (runMeta : Val).

(** The popup branches of the [runtime.onMessage] listener; the result is
    the object passed to [sendResponse]. *)
Definition onMessage (now : string) (request : Request) : Exec Val :=
  match request with
  | START_RUN =>
      startRun now;;
      st ← read;
      mret (JObj (<["success" := JBool true]>
                 (<["run_id" := match currentRun st with
                                | Some r => field r "run_id"
                                | None => JNull
                                end]> ∅)))
  | END_RUN runMeta =>
      endRun now (or_else runMeta (JObj ∅));;
      mret (JObj (<["success" := JBool true]> ∅))
  end.

(** Snapshots handed to [logEncounterFromSession] one after the other, as
    the two listeners do with what they receive. *)
Fixpoint deliver (snapshots : list Val) : Exec unit :=
  match snapshots with
  | [] => mret tt
  | s :: rest => logEncounterFromSession s;; deliver rest
  end.

(** ** Vocabulary of the properties *)

(** The first enemy of a snapshot, when it has a non-empty [enemyParty]. *)
Definition firstEnemy_of (sessionData : Val) : option Val :=
  head_of_array (get sessionData "enemyParty").

(** A valid snapshot: present, with a non-empty [enemyParty] whose first
    member is there to expose [species] and [level]. *)
Definition valid_snapshot (sessionData : Val) : bool :=
  truthy sessionData &&
  match firstEnemy_of sessionData with
  | Some e => negb (nullish e)
  | None => false
  end.

(** No snapshot of the sequence carries the wave index carried by the
    last one before it that had one ([last] at the start). *)
Fixpoint fresh_waves (last : Val) (snapshots : list Val) : bool :=
  match snapshots with
  | [] => true
  | s :: rest =>
      let w := waveIndex_of s in
      if strict_eq w JNull then fresh_waves last rest
      else negb (strict_eq w last) && fresh_waves w rest
  end.

(** [start()], the snapshots, [finalize(runMeta)]. *)
Definition session (start_time : string) (snapshots : list Val)
    (end_time : string) (runMeta : Val) : Exec unit :=
  startRun start_time;; deliver snapshots;; endRun end_time runMeta.

(** The metadata leaves [run_id] a string: it has no [run_id], or a
    string one. *)
Definition keeps_run_id (runMeta : Val) : bool :=
  match own_enumerable runMeta !! "run_id" with
  | None | Some (JStr _) => true
  | Some _ => false
  end.

(** The state [startRun] leaves. *)
Definition started (now : string) : State :=
  {| currentRun := Some (new_run now); encounterBuffer := [];
     battleIndex := 0; lastLoggedWaveIndex := JNull |}.

(** The acknowledgement [{ success: true }]. *)
Definition success_response : Val :=
  JObj (<["success" := JBool true]> ∅).

(** A snapshot [{ waveIndex, enemyParty: [{ species, level }] }]. *)
Definition snapshot (waveIndex species level : Val) : Val :=
  JObj (<["waveIndex" := waveIndex]>
       (<["enemyParty" :=
            JArr [JObj (<["species" := species]>
                       (<["level" := level]> ∅))]]> ∅)).

(** The metadata [{ result: "WIN" }]. *)
Definition win_meta : Val := JObj (<["result" := JStr "WIN"]> ∅).

End Tracker.

(** Stand-ins for the collaborators, to run the tracker on examples. *)
Definition species_as_is (species : Val) : Val := species.
Definition no_json (p : Payload) : string := "{}".
Definition no_escape (text : string) : string := text.

(** Two instants, and snapshots of waves 5 and 6 (a level-12 Pikachu, a
    level-0 Rattata). *)
Definition ten_o_clock : string := "2026-01-01T10:00:00.000Z".
Definition noon : string := "2026-01-01T12:00:00.000Z".
Definition wave5 : Val := snapshot (JNum 5) (JNum 25) (JNum 12).
Definition wave6 : Val := snapshot (JNum 6) (JNum 19) (JNum 0).

(** A run started at ten with wave 5 logged. *)
Definition one_logged : State :=
  final ((startRun ten_o_clock;; deliver species_as_is [wave5]) idle).

(** ** Calls of the tracker over time *)

Section Calls.

Variable convertPokemonId : Val → Val.
Variable JSON_stringify : Payload → string.
Variable encodeURIComponent : string → string.

(** One call of a tracking function, as a listener makes it. *)
Inductive Call : Type :=
| CallStart (now : string)
| CallEnd (now : string) (runMeta : Val)
| CallLog (sessionData : Val).

Definition perform (c : Call) : Exec unit :=
  match c with
  | CallStart now => startRun now
  | CallEnd now runMeta =>
      endRun JSON_stringify encodeURIComponent now runMeta
  | CallLog sessionData =>
      logEncounterFromSession convertPokemonId sessionData
  end.

(** Calls made one after the other, each from its own listener invocation:
    an exception ends the invocation it escapes from, the variables keep
    what was assigned, and the next call runs. *)
Fixpoint perform_all (calls : list Call) (st : State) : State * list Effect :=
  match calls with
  | [] => (st, [])
  | c :: rest =>
      let r := perform c st in
      let r' := perform_all rest (final r) in
      (r'.1, effects r ++ r'.2)
  end.

Definition is_start (c : Call) : bool :=
  match c with CallStart _ => true | _ => false end.

Definition is_end (c : Call) : bool :=
  match c with CallEnd _ _ => true | _ => false end.

(** The wave cursor holds [null] or a number. *)
Definition cursor_ok (last : Val) : bool :=
  strict_eq last JNull || String.eqb (typeof last) "number".

(** What the tracking variables satisfy between calls: the battle index
    counts the buffer, the buffered encounters carry 0, 1, 2, ... in order,
    and without an active run everything is reset. *)
Definition consistent (st : State) : Prop :=
  battleIndex st = Z.of_nat (length (encounterBuffer st)) ∧
  battle_index <$> encounterBuffer st
    = seqZ 0 (Z.of_nat (length (encounterBuffer st))) ∧
  cursor_ok (lastLoggedWaveIndex st) = true ∧
  (currentRun st = None →
   encounterBuffer st = [] ∧ lastLoggedWaveIndex st = JNull).

(** A run document whose count and indices agree with its encounters. *)
Definition well_counted (doc : Payload) : Prop :=
  run doc !! "total_battles"
    = Some (JNum (Z.of_nat (length (encounters doc)))) ∧
  battle_index <$> encounters doc
    = seqZ 0 (Z.of_nat (length (encounters doc))).

(** A string that is ["0"] or does not start with the digit 0, as the
    decimal numeral of a non-negative integer is. *)
Definition no_leading_zero (s : string) : Prop :=
  s = "0" ∨ ∃ c r, s = String c r ∧ c ≠ "0"%char.

(** 1 when a run is active, 0 otherwise. *)
Definition active (st : State) : nat :=
  match currentRun st with Some _ => 1 | None => 0 end.

(** The id [logEncounterFromSession] gives the encounter of index [i] in
    a run whose [run_id] converts to [run_id]. *)
Definition encounterId_of (run_id : string) (i : Z) : string :=
  run_id +:+ "_" +:+ padStart0 3 (pretty i).

End Calls.

(** ** The popup *)

Section Popup.

Variable JSON_stringify : Payload → string.
Variable encodeURIComponent : string → string.

(** The [runMeta] the popup sends with [END_RUN]. *)
Definition popup_runMeta : Val :=
  JObj (<["result" := JStr "Unknown"]>
       (<["final_stage" := JNull]>
       (<["final_boss" := JNull]>
       (<["starter_species" := JNull]>
       (<["run_tag" := JNull]> ∅))))).

(** The callbacks the popup passes to [sendMessage]: the text they put
    in the status line, unless the template literal throws first.
    [lastError] is what [chrome.runtime.lastError] holds, set by the
    browser when no response was sent. *)
Definition startRun_callback (lastError : bool) (response : Val)
    : Completion string :=
  if lastError then Returned "Error starting run."
  else
    match to_string (and_then response (get response "run_id")) with
    | Some run_id => Returned ("Run started: " +:+ run_id)
    | None => Thrown "TypeError"
    end.

Definition endRun_callback (lastError : bool) (response : Val)
    : Completion string :=
  if lastError then Returned "Error ending run."
  else Returned "Run ended and saved as JSON.".

(** A click in the popup: the request reaches the listener, and the
    callback is given the response, or an error when the listener threw
    before sending one.  The result is the text the callback puts in the
    status line, or the exception it throws. *)
Definition click (request : Request)
    (callback : bool → Val → Completion string)
    (now : string) (st : State) : State * list Effect * Completion string :=
  let r := onMessage JSON_stringify encodeURIComponent now request st in
  (final r, effects r,
   match completion r with
   | Returned response => callback false response
   | Thrown _ => callback true JUndefined
   end).

Definition click_startRun
    : string → State → State * list Effect * Completion string :=
  click START_RUN startRun_callback.

Definition click_endRun
    : string → State → State * list Effect * Completion string :=
  click (END_RUN popup_runMeta) endRun_callback.

End Popup.

(** An evening at the tracker: a snapshot before any run, a start, a
    burst of wave 5, a snapshot whose first enemy is [null], wave 6, an
    [endRun] that makes [run_id] a number, one that repairs it, and an
    [endRun] too many. *)
Definition an_evening : list Call :=
  [CallLog wave5;
   CallStart ten_o_clock;
   CallLog wave5; CallLog wave5;
   CallLog (JObj (<["enemyParty" := JArr [JNull]]> ∅));
   CallLog wave6;
   CallEnd noon (JObj (<["run_id" := JNum 7]> ∅));
   CallEnd noon (JObj (<["run_id" := JStr "mine"]> ∅));
   CallEnd noon win_meta].

(** Metadata with a field [__proto__], as [JSON.parse] and the message
    channel can deliver them. *)
Definition proto_and_win : gmap string Val :=
  <["__proto__" := JNum 5]> (<["result" := JStr "WIN"]> ∅).
Definition proto_and_run_id : gmap string Val :=
  <["__proto__" := JStr "tilted"]> (<["run_id" := JStr "mine"]> ∅).

(** The run started at ten with wave 5 logged, after an [endRun] whose
    metadata made [run_id] an object with a field [toString]: that
    [endRun] threw at [replace], and the run is still active. *)
Definition run_id_without_string : State :=
  final (endRun no_json no_escape noon
           (JObj (<["run_id" := JObj (<["toString" := JNum 5]> ∅)]> ∅))
           one_logged).

(** A snapshot without [waveIndex], and one whose [waveIndex] is a string. *)
Definition no_wave : Val :=
  JObj (<["enemyParty" :=
            JArr [JObj (<["species" := JNum 1]>
                       (<["level" := JNum 5]> ∅))]]> ∅).
Definition string_wave : Val := snapshot (JStr "5") (JNum 4) (JNum 9).

(** ** The overlay: [sortById] and [appendPokemonArrayToDiv] *)

(** ToNumber of a primitive that is not a string; [None] stands for NaN.
    (The ids compared below are the numbers [convertPokemonId] yields;
    strings and objects, whose conversion needs a parser, are taken as
    NaN and are outside what is proved.) *)
Definition to_number (v : Val) : option Z :=
  match v with
  | JNum z => Some z
  | JNull => Some 0%Z
  | JBool b => Some (if b then 1 else 0)%Z
  | _ => None
  end.

(** [x < y] and [x > y] on such values: false as soon as one is NaN. *)
Definition less_than (x y : Val) : bool :=
  match to_number x, to_number y with
  | Some a, Some b => (a <? b)%Z
  | _, _ => false
  end.

Definition greater_than (x y : Val) : bool := less_than y x.

(** [sortById(a, b)], on the entries of [frontendPokemonArray] that
    [sort] hands it: objects, never [null] or [undefined]. *)
Definition sortById (a b : Val) : Z :=
  if greater_than (get a "id") (get b "id") then 1
  else if less_than (get a "id") (get b "id") then -1
  else 0.

(** What [Array.prototype.sort] asks of its comparator on the elements it
    sorts (ECMAScript's consistent comparator). *)
Definition consistent_comparator (cmp : Val → Val → Z) (l : list Val) : Prop :=
  ∀ a b c, a ∈ l → b ∈ l → c ∈ l →
    cmp a a = 0%Z ∧
    Z.sgn (cmp a b) = (- Z.sgn (cmp b a))%Z ∧
    ((cmp a b ≤ 0)%Z → (cmp b c ≤ 0)%Z → (cmp a c ≤ 0)%Z).


(** A sort to run examples with: insertion from the right. *)
Fixpoint insert_sorted (cmp : Val → Val → Z) (x : Val) (l : list Val)
    : list Val :=
  match l with
  | [] => [x]
  | y :: rest =>
      if decide (cmp x y ≤ 0)%Z then x :: y :: rest
      else y :: insert_sorted cmp x rest
  end.

Definition insertion_sort (cmp : Val → Val → Z) (l : list Val) : list Val :=
  foldr (insert_sorted cmp) [] l.

(** One request of [appendPokemonArrayToDiv] to the lookups: the party
    member, its id, and the weather computed in its iteration. *)
Record Pending : Type := {
  pokemon : Val;
  pokemonId : Val;
  weather : Val
}.

(** What the two lookups of one request resolved with: the ability, and
    the three sets of types, each as the list of its elements. *)
Record Lookup : Type := {
  ability : Val;
  weaknesses : list Val;
  resistances : list Val;
  immunities : list Val
}.

(** What the overlay code does to the outside: the console line of a
    resolved request, and the call [updateDiv(pokemons, weather, message)],
    whose own work is left to the browser callbacks. *)
Inductive OverlayEffect : Type :=
| GotPokemon (args : list Val)
| UpdateDiv (pokemons : list Val) (weather : Val) (message : string).

(** The [updateDiv] calls among the effects. *)
Definition updates (out : list OverlayEffect)
    : list (list Val * Val * string) :=
  omap (λ e, match e with
             | UpdateDiv ps w m => Some (ps, w, m)
             | _ => None
             end) out.

Section Overlay.

(** Collaborators outside the script, taken as total: the species lookup,
    the tables [WeatherType] and [Nature], the description of a nature,
    and the engine's [Array.prototype.sort]. *)
Variable convertPokemonId : Val → Val.
Variable WeatherType : Val → Val.
Variable Nature : Val → Val.
Variable getNatureDescription : Val → Val.
Variable Array_sort : (Val → Val → Z) → list Val → list Val.

(** The [weather] of one iteration: [{}] unless the arena has a weather
    with a truthy [weatherType].  Reading [arena.weather] throws when
    there is no arena. *)
Definition weather_of (arena : Val) : Completion Val :=
  if nullish arena then Thrown "TypeError" else
  let w := get arena "weather" in
  if truthy (and_then w (get w "weatherType"))
  then Returned (JObj (<["type" := WeatherType (get w "weatherType")]>
                      (<["turnsLeft" := or_else (get w "turnsLeft") (JNum 0)]>
                       ∅)))
  else Returned (JObj ∅).

(** The synchronous part of [appendPokemonArrayToDiv]: the iterations of
    [forEach], each issuing its request, until one throws.  The requests
    issued before stay issued.  ([PokeApi.getAbility] is taken to hand back
    its promise without throwing.) *)
Fixpoint issue (arena : Val) (pokemonArray : list Val)
    : list Pending * Completion unit :=
  match pokemonArray with
  | [] => ([], Returned tt)
  | p :: rest =>
      if nullish p then ([], Thrown "TypeError") else
      let id := convertPokemonId (get p "species") in
      match weather_of arena with
      | Thrown e => ([], Thrown e)
      | Returned w =>
          let r := issue arena rest in
          ({| pokemon := p; pokemonId := id; weather := w |} :: r.1, r.2)
      end
  end.

(** [appendPokemonArrayToDiv(pokemonArray, arena, message)], up to its
    return: only an array has a [forEach]. *)
Definition appendPokemonArrayToDiv (pokemonArray arena : Val)
    : list Pending * Completion unit :=
  match pokemonArray with
  | JArr items => issue arena items
  | _ => ([], Thrown "TypeError")
  end.

(** The object pushed on [frontendPokemonArray] when both lookups of a
    request have resolved. *)
Definition frontend_entry (p : Pending) (l : Lookup) : Val :=
  JObj (<["id" := pokemonId p]>
       (<["typeEffectiveness" :=
            JObj (<["weaknesses" := JArr (weaknesses l)]>
                 (<["resistances" := JArr (resistances l)]>
                 (<["immunities" := JArr (immunities l)]> ∅)))]>
       (<["ivs" := get (pokemon p) "ivs"]>
       (<["ability" := ability l]>
       (<["nature" :=
            JObj (<["name" := Nature (get (pokemon p) "nature")]>
                 (<["description" :=
                      getNatureDescription (get (pokemon p) "nature")]> ∅))]>
        ∅))))).

(** The variables of one call of [appendPokemonArrayToDiv]. *)
Record Gathering : Type := {
  frontendPokemonArray : list Val;
  itemsProcessed : nat
}.

(** The inner [then] callback, run when both lookups of the request [p]
    have resolved with [l]; [n] is [array.length].  It logs, pushes, counts
    and, when the count reaches [n], sorts the array in place and calls
    [updateDiv] with it. *)
Definition resolved (n : nat) (message : string) (p : Pending) (l : Lookup)
    (g : Gathering) : Gathering * list OverlayEffect :=
  let log := GotPokemon [JStr "Got pokemon"; pokemonId p;
                         JStr "ability"; ability l;
                         JStr "type effectiveness";
                         JObj (<["weaknesses" := JArr (weaknesses l)]>
                              (<["resistances" := JArr (resistances l)]>
                              (<["immunities" := JArr (immunities l)]> ∅)))] in
  let pushed := frontendPokemonArray g ++ [frontend_entry p l] in
  let count := S (itemsProcessed g) in
  if Nat.eqb count n
  then
    let sorted := Array_sort sortById pushed in
    ({| frontendPokemonArray := sorted; itemsProcessed := count |},
     [log; UpdateDiv sorted (weather p) message])
  else
    ({| frontendPokemonArray := pushed; itemsProcessed := count |}, [log]).

(** The callbacks that run, in the order in which the lookups resolve; a
    request whose lookup fails has none. *)
Fixpoint gather (n : nat) (message : string)
    (resolutions : list (Pending * Lookup)) (g : Gathering)
    : Gathering * list OverlayEffect :=
  match resolutions with
  | [] => (g, [])
  | (p, l) :: rest =>
      let r := resolved n message p l g in
      let r' := gather n message rest r.1 in
      (r'.1, r.2 ++ r'.2)
  end.

Definition gathering_start : Gathering :=
  {| frontendPokemonArray := []; itemsProcessed := 0 |}.

End Overlay.

(** A table and a description to run examples with. *)
Definition no_table (key : Val) : Val := JUndefined.

(** The entries pushed for a list of resolutions, in their order. *)
Definition entries_of (Nature getNatureDescription : Val → Val)
    (resolutions : list (Pending * Lookup)) : list Val :=
  (λ r, frontend_entry Nature getNatureDescription r.1 r.2) <$> resolutions.

(** The id of an entry is the number [x]. *)
Definition has_numeric_id (a : Val) : Prop := ∃ x, get a "id" = JNum x.

(** Ascending ids: [a] and [b] have numeric ids, that of [a] at most that
    of [b]. *)
Definition id_le (a b : Val) : Prop :=
  ∃ x y, get a "id" = JNum x ∧ get b "id" = JNum y ∧ (x ≤ y)%Z.

(** A party of three, an arena with weather, and what the lookups of the
    three resolve with. *)
Definition party_of_three : list Val :=
  [JObj (<["species" := JNum 25]> (<["nature" := JNum 3]> ∅));
   JObj (<["species" := JNum 4]> (<["nature" := JNum 1]> ∅));
   JObj (<["species" := JNum 7]> (<["nature" := JNum 0]> ∅))].

Definition rainy_arena : Val :=
  JObj (<["weather" :=
            JObj (<["weatherType" := JNum 2]>
                 (<["turnsLeft" := JNum 0]> ∅))]> ∅).

Definition some_lookup (name : string) : Lookup :=
  {| ability := JStr name; weaknesses := [JStr "ground"];
     resistances := []; immunities := [] |}.

(** The three requests, resolved in the order they were issued. *)
Definition resolved_in_order : list (Pending * Lookup) :=
  zip (appendPokemonArrayToDiv species_as_is no_table
         (JArr party_of_three) rainy_arena).1
      [some_lookup "static"; some_lookup "blaze"; some_lookup "torrent"].

(** ** The listeners *)

(** [hay.includes(needle)] *)
Fixpoint includes (needle hay : string) : bool :=
  String.prefix needle hay ||
  match hay with
  | EmptyString => false
  | String _ rest => includes needle rest
  end.

(** What a listener invocation leaves behind: the tracking variables, the
    tracker's output, the lookups the overlay issued, the error handed to
    [console.error] by a [catch], the exception that escaped, and the
    object given to [sendResponse]. *)
Record Handled : Type := {
  after : State;
  output : list Effect;
  issued : list Pending;
  caught : option string;
  escaped : option string;
  response : option Val
}.

Section Listeners.

Variable convertPokemonId : Val → Val.
Variable WeatherType : Val → Val.
Variable mapPartyToPokemonArray : Val → Val.
Variable JSON_stringify : Payload → string.
Variable encodeURIComponent : string → string.

(** What both listeners do with a snapshot: the overlay call for the enemy
    party, the one for the own party, then [logEncounterFromSession].  The
    first exception ends the sequence; what was issued stays issued. *)
Definition show_and_log (sessionData : Val) (st : State)
    : Completion unit * State * list Effect * list Pending :=
  if nullish sessionData then (Thrown "TypeError", st, [], []) else
  let arena := get sessionData "arena" in
  let enemies :=
    appendPokemonArrayToDiv convertPokemonId WeatherType
      (mapPartyToPokemonArray (get sessionData "enemyParty")) arena in
  match enemies.2 with
  | Thrown e => (Thrown e, st, [], enemies.1)
  | Returned _ =>
      let allies :=
        appendPokemonArrayToDiv convertPokemonId WeatherType
          (mapPartyToPokemonArray (get sessionData "party")) arena in
      match allies.2 with
      | Thrown e => (Thrown e, st, [], enemies.1 ++ allies.1)
      | Returned _ =>
          let r := logEncounterFromSession convertPokemonId sessionData st in
          (completion r, final r, effects r, enemies.1 ++ allies.1)
      end
  end.

(** Both overlay calls made for a snapshot return normally. *)
Definition overlay_returns (sessionData : Val) : Prop :=
  nullish sessionData = false ∧
  (appendPokemonArrayToDiv convertPokemonId WeatherType
     (mapPartyToPokemonArray (get sessionData "enemyParty"))
     (get sessionData "arena")).2 = Returned tt ∧
  (appendPokemonArrayToDiv convertPokemonId WeatherType
     (mapPartyToPokemonArray (get sessionData "party"))
     (get sessionData "arena")).2 = Returned tt.

(** The [webRequest.onBeforeRequest] listener.  [body] is what
    [JSON.parse] of the decoded request body gives, or the exception of
    reading or parsing it. *)
Definition onBeforeRequest (method url : string) (body : Completion Val)
    (st : State) : Handled :=
  if negb (String.eqb method "POST")
  then {| after := st; output := []; issued := []; caught := None;
          escaped := None; response := None |}
  else
    match body with
    | Thrown e =>
        {| after := st; output := []; issued := []; caught := Some e;
           escaped := None; response := None |}
    | Returned parsed =>
        let log := ConsoleLog [JStr "POST Session data:"; parsed] in
        if includes "updateall" url && nullish parsed
        then {| after := st; output := [log]; issued := [];
                caught := Some "TypeError";
                escaped := None; response := None |}
        else
          let sessionData :=
            if includes "updateall" url then get parsed "session"
            else parsed in
          let r := show_and_log sessionData st in
          {| after := r.1.1.2; output := log :: r.1.2; issued := r.2;
             caught := match r.1.1.1 with
                       | Thrown e => Some e
                       | Returned _ => None
                       end;
             escaped := None; response := None |}
    end.

(** The [BG_GET_SAVEDATA] branch of the [runtime.onMessage] listener, after
    the assignment of [slotId]: there is no [catch] here. *)
Definition onSaveData (savedata : Val) (st : State) : Handled :=
  let log := ConsoleLog [JStr "Received save data"; savedata] in
  let r := show_and_log savedata st in
  {| after := r.1.1.2; output := log :: r.1.2; issued := r.2;
     caught := None;
     escaped := match r.1.1.1 with
                | Thrown e => Some e
                | Returned _ => None
                end;
     response := match r.1.1.1 with
                 | Thrown _ => None
                 | Returned _ => Some success_response
                 end |}.

End Listeners.

(** A party mapper to run examples with: the party as it is. *)
Definition party_as_is (party : Val) : Val := party.

(** The URLs of the two intercepted requests. *)
Definition update_url : string :=
  "https://api.pokerogue.net/savedata/update?datatype=1&slot=0".
Definition updateall_url : string :=
  "https://api.pokerogue.net/savedata/updateall".

(** Wave 5 again, this time with an arena and the player's party. *)
Definition wave5_in_arena : Val :=
  JObj (<["waveIndex" := JNum 5]>
       (<["enemyParty" :=
            JArr [JObj (<["species" := JNum 25]>
                       (<["level" := JNum 12]> ∅))]]>
       (<["party" := JArr party_of_three]>
       (<["arena" := rainy_arena]> ∅)))).

(** An encounter as the tracker can log it: the reserved fields at their
    defaults, and a level that is [null] or truthy. *)
Definition reserved_at_defaults (enc : Encounter) : Prop :=
  enemy_type1 enc = JNull ∧
  enemy_type2 enc = JNull ∧
  is_boss enc = false ∧
  encounter_result enc = JNull ∧
  enemy_ended_run enc = false ∧
  notes enc = JNull ∧
  (enemy_level enc = JNull ∨ truthy (enemy_level enc) = true).

(** Metadata that [endRun] does not merge: anything but an object or an
    array. *)
Definition not_an_object (runMeta : Val) : bool :=
  match runMeta with
  | JObj _ | JArr _ => false
  | _ => true
  end.

Section Properties.

Context (convertPokemonId : Val → Val).

Context (JSON_stringify : Payload → string).
Context (encodeURIComponent : string → string).

#[local] Abbreviation dataUrl := (dataUrl JSON_stringify encodeURIComponent).
#[local] Abbreviation endRun := (endRun JSON_stringify encodeURIComponent).
#[local] Abbreviation onMessage :=
  (onMessage JSON_stringify encodeURIComponent).
#[local] Abbreviation logEncounterFromSession :=
  (logEncounterFromSession convertPokemonId).
#[local] Abbreviation deliver := (deliver convertPokemonId).
#[local] Abbreviation session :=
  (session convertPokemonId JSON_stringify encodeURIComponent).

(** ** How each function runs *)

Lemma startRun_run now st :
  startRun now st =
    (Returned tt, started now,
     [ConsoleLog [JStr "Pokerogue tracker: started run";
                  JStr ("run_" +:+ now)]]).
Proof. reflexivity. Qed.

(** The guards of [logEncounterFromSession] that return at once. *)
Lemma log_inactive s st :
  currentRun st = None →
  logEncounterFromSession s st = (Returned tt, st, []).
Proof.
  intros Hrun. unfold logEncounterFromSession, mbind, Exec_bind, read.
  rewrite Hrun. destruct st; reflexivity.
Qed.

Lemma log_absent s st :
  truthy s = false →
  logEncounterFromSession s st = (Returned tt, st, []).
Proof.
  intros Hs. unfold logEncounterFromSession, mbind, Exec_bind, read.
  destruct (currentRun st); rewrite ?Hs; reflexivity.
Qed.

Lemma log_no_enemy s st :
  firstEnemy_of s = None →
  logEncounterFromSession s st = (Returned tt, st, []).
Proof.
  intros Hs. unfold logEncounterFromSession, mbind, Exec_bind, read.
  unfold firstEnemy_of in Hs.
  destruct (currentRun st); [|reflexivity].
  destruct (truthy s); [|reflexivity]. simpl. rewrite Hs. reflexivity.
Qed.

Lemma log_same_wave s st :
  same_wave (waveIndex_of s) (lastLoggedWaveIndex st) = true →
  logEncounterFromSession s st = (Returned tt, st, []).
Proof.
  intros Hw. unfold logEncounterFromSession, mbind, Exec_bind, read.
  destruct (currentRun st); [|reflexivity].
  destruct (truthy s); [|reflexivity]. simpl.
  destruct (head_of_array _); [|reflexivity].
  rewrite Hw. reflexivity.
Qed.

(** A valid snapshot with a new wave is appended, when the [run_id] of
    the run converts to a string. *)
Lemma log_appends s st r rid e :
  currentRun st = Some r →
  to_string (field r "run_id") = Some rid →
  truthy s = true →
  firstEnemy_of s = Some e →
  nullish e = false →
  same_wave (waveIndex_of s) (lastLoggedWaveIndex st) = false →
  ∃ enc out,
    logEncounterFromSession s st =
      (Returned tt,
       {| currentRun := Some r;
          encounterBuffer := encounterBuffer st ++ [enc];
          battleIndex := battleIndex st + 1;
          lastLoggedWaveIndex :=
            if strict_eq (waveIndex_of s) JNull
            then lastLoggedWaveIndex st else waveIndex_of s |},
       out) ∧
    battle_index enc = battleIndex st ∧
    encounter_id enc = encounterId_of rid (battleIndex st) ∧
    enemy_species enc = convertPokemonId (get e "species") ∧
    enemy_level enc = or_else (get e "level") JNull ∧
    downloads out = [] ∧ warnings out = [].
Proof.
  intros Hrun Hid Hs He Hne Hw. unfold firstEnemy_of in He.
  eexists _, _. split.
  - unfold logEncounterFromSession, mbind, Exec_bind, read.
    rewrite Hrun, Hs. simpl. rewrite He, Hw.
    unfold member, substitution. rewrite Hne. simpl. rewrite Hid. simpl.
    destruct (strict_eq (waveIndex_of s) JNull); reflexivity.
  - repeat split.
Qed.

(** The two exceptions of [logEncounterFromSession]: the first enemy is
    [null] or [undefined], or the [run_id] has no conversion to a string.
    Nothing was assigned or output before. *)
Lemma log_throws s st r e :
  currentRun st = Some r →
  truthy s = true →
  firstEnemy_of s = Some e →
  nullish e = true →
  same_wave (waveIndex_of s) (lastLoggedWaveIndex st) = false →
  logEncounterFromSession s st = (Thrown "TypeError", st, []).
Proof.
  intros Hrun Hs He Hne Hw. unfold firstEnemy_of in He.
  unfold logEncounterFromSession, mbind, Exec_bind, read.
  rewrite Hrun, Hs. simpl. rewrite He, Hw.
  unfold member. rewrite Hne. reflexivity.
Qed.

Lemma log_throws_at_run_id s st r e :
  currentRun st = Some r →
  to_string (field r "run_id") = None →
  truthy s = true →
  firstEnemy_of s = Some e →
  same_wave (waveIndex_of s) (lastLoggedWaveIndex st) = false →
  logEncounterFromSession s st = (Thrown "TypeError", st, []).
Proof.
  intros Hrun Hid Hs He Hw. unfold firstEnemy_of in He.
  unfold logEncounterFromSession, mbind, Exec_bind, read.
  rewrite Hrun, Hs. simpl. rewrite He, Hw.
  unfold member, substitution.
  destruct (nullish e); [reflexivity|]. simpl. rewrite Hid. reflexivity.
Qed.

(** The run object after the assignments of [endRun]. *)
Lemma own_enumerable_guard m :
  truthy m && String.eqb (typeof m) "object" = false →
  own_enumerable m = ∅.
Proof. destruct m as [| |[]| | | | |]; simpl; done. Qed.

Lemma merged_total_battles now m buffer (r : gmap string Val) :
  stamp_and_merge now m buffer r !! "total_battles" =
    Some (JNum (Z.of_nat (length buffer))).
Proof. unfold stamp_and_merge. apply lookup_insert_eq. Qed.

(** [Object.assign] at every key but [__proto__]: the value of the
    source where it has the key, the value of the target elsewhere. *)
Lemma assign_lookup (target : gmap string Val) src k :
  k ≠ "__proto__" →
  assign target src !! k =
    match own_enumerable src !! k with
    | Some v => Some v
    | None => target !! k
    end.
Proof.
  intros Hk. unfold assign.
  destruct (target !! "__proto__");
    rewrite lookup_union, ?lookup_delete_ne by done;
    by destruct (own_enumerable src !! k), (target !! k).
Qed.

(** At [__proto__]: nothing is created on a target without the key. *)
Lemma assign_lookup_proto (target : gmap string Val) src :
  target !! "__proto__" = None →
  assign target src !! "__proto__" = None.
Proof.
  intros Hnone. unfold assign. rewrite Hnone, lookup_union.
  by rewrite lookup_delete_eq, Hnone.
Qed.

(** At a key the source does not have: the value of the target. *)
Lemma assign_lookup_absent (target : gmap string Val) src k :
  own_enumerable src !! k = None →
  assign target src !! k = target !! k.
Proof.
  intros Hk. unfold assign.
  destruct (target !! "__proto__"); rewrite lookup_union.
  - rewrite Hk. by destruct (target !! k).
  - assert (delete "__proto__" (own_enumerable src) !! k = None) as ->
      by (apply lookup_delete_None; by right).
    by destruct (target !! k).
Qed.

Lemma merged_lookup_absent now m buffer (r : gmap string Val) k :
  k ≠ "total_battles" →
  own_enumerable m !! k = None →
  stamp_and_merge now m buffer r !! k = <["end_timestamp" := JStr now]> r !! k.
Proof.
  intros Hk Habsent. unfold stamp_and_merge.
  rewrite lookup_insert_ne by done.
  destruct (truthy m && String.eqb (typeof m) "object"); [|done].
  by apply assign_lookup_absent.
Qed.

Lemma merged_lookup now m buffer (r : gmap string Val) k :
  k ≠ "total_battles" →
  k ≠ "__proto__" →
  stamp_and_merge now m buffer r !! k =
    match own_enumerable m !! k with
    | Some v => Some v
    | None => <["end_timestamp" := JStr now]> r !! k
    end.
Proof.
  intros Hk Hproto. unfold stamp_and_merge.
  rewrite lookup_insert_ne by done.
  destruct (truthy m && String.eqb (typeof m) "object") eqn:Hguard.
  - by apply assign_lookup.
  - rewrite (own_enumerable_guard m Hguard), lookup_empty. done.
Qed.

Lemma merged_run_id now m buffer (r : gmap string Val) :
  field (stamp_and_merge now m buffer r) "run_id" =
    match own_enumerable m !! "run_id" with
    | Some v => v
    | None => field r "run_id"
    end.
Proof.
  unfold field. rewrite merged_lookup by done.
  destruct (own_enumerable m !! "run_id"); [done|].
  by rewrite lookup_insert_ne.
Qed.

(** The three ways [endRun] runs. *)
Lemma endRun_inactive now m st :
  currentRun st = None →
  endRun now m st =
    (Returned tt, st,
     [ConsoleWarn
        [JStr "Pokerogue tracker: endRun called but no active run"]]).
Proof.
  intros Hrun. unfold endRun, mbind, Exec_bind, read.
  rewrite Hrun. reflexivity.
Qed.

Lemma endRun_emits now m st r rid :
  currentRun st = Some r →
  field (stamp_and_merge now m (encounterBuffer st) r) "run_id" = JStr rid →
  endRun now m st =
    (Returned tt, idle,
     [Download
        {| url := dataUrl {| run := stamp_and_merge now m (encounterBuffer st) r;
                             encounters := encounterBuffer st |};
           filename := "pokerogue_runs/" +:+ replace_colons rid +:+ ".json";
           saveAs := false |};
      ConsoleLog [JStr "Pokerogue tracker: ended run";
                  JStr rid;
                  JStr "with";
                  JNum (Z.of_nat (length (encounterBuffer st)));
                  JStr "encounters"]]).
Proof.
  intros Hrun Hid. unfold endRun, mbind, Exec_bind, read.
  rewrite Hrun. simpl. rewrite Hid. reflexivity.
Qed.

Lemma endRun_throws now m st r :
  currentRun st = Some r →
  (∀ rid, field (stamp_and_merge now m (encounterBuffer st) r) "run_id"
            ≠ JStr rid) →
  endRun now m st =
    (Thrown "TypeError",
     {| currentRun := Some (stamp_and_merge now m (encounterBuffer st) r);
        encounterBuffer := encounterBuffer st;
        battleIndex := battleIndex st;
        lastLoggedWaveIndex := lastLoggedWaveIndex st |},
     []).
Proof.
  intros Hrun Hid. unfold endRun, mbind, Exec_bind, read.
  rewrite Hrun. simpl.
  destruct (field _ "run_id") eqn:E; try reflexivity.
  by destruct (Hid s).
Qed.

(** [endRun] returns exactly when the merged [run_id] is a string. *)
Lemma endRun_returns_iff now m st r :
  currentRun st = Some r →
  completion (endRun now m st) = Returned tt ↔
  ∃ rid, field (stamp_and_merge now m (encounterBuffer st) r) "run_id"
           = JStr rid.
Proof.
  intros Hrun. split.
  - intros Hc.
    destruct (field (stamp_and_merge now m (encounterBuffer st) r) "run_id")
      as [| | | | |rid| |] eqn:E; eauto;
      rewrite (endRun_throws now m st r Hrun) in Hc
        by (intros ?; rewrite E; discriminate);
      discriminate.
  - intros [rid Hid]. by rewrite (endRun_emits now m st r rid).
Qed.

Lemma keeps_run_id_string now m buffer (r : gmap string Val) rid :
  keeps_run_id m = true →
  field r "run_id" = JStr rid →
  ∃ rid', field (stamp_and_merge now m buffer r) "run_id" = JStr rid'.
Proof.
  unfold keeps_run_id. intros Hm Hr. rewrite merged_run_id.
  destruct (own_enumerable m !! "run_id") as [[]|]; try discriminate; eauto.
Qed.

(** ** Sequences of snapshots *)

Lemma downloads_app out1 out2 :
  downloads (out1 ++ out2) = downloads out1 ++ downloads out2.
Proof. apply omap_app. Qed.

Lemma valid_snapshot_inv s :
  valid_snapshot s = true →
  truthy s = true ∧ ∃ e, firstEnemy_of s = Some e ∧ nullish e = false.
Proof.
  unfold valid_snapshot. intros [Hs He]%andb_prop. split; [done|].
  destruct (firstEnemy_of s) as [e|]; [|done].
  exists e. split; [done|]. by apply negb_true_iff.
Qed.

Lemma bind_returned {A B} (m : Exec A) (k : A → Exec B) st a st1 out1 :
  m st = (Returned a, st1, out1) →
  (m ≫= k) st =
    (completion (k a st1), final (k a st1), out1 ++ effects (k a st1)).
Proof.
  intros Hm. unfold mbind, Exec_bind. rewrite Hm.
  by destruct (k a st1) as [[c st2] out2].
Qed.

(** Valid snapshots that never repeat the wave logged last are all
    appended, with consecutive battle indices. *)
Lemma deliver_appends snapshots : ∀ st r rid,
  currentRun st = Some r →
  to_string (field r "run_id") = Some rid →
  forallb valid_snapshot snapshots = true →
  fresh_waves (lastLoggedWaveIndex st) snapshots = true →
  ∃ encs out last,
    deliver snapshots st =
      (Returned tt,
       {| currentRun := Some r;
          encounterBuffer := encounterBuffer st ++ encs;
          battleIndex := battleIndex st + Z.of_nat (length snapshots);
          lastLoggedWaveIndex := last |},
       out) ∧
    battle_index <$> encs =
      seqZ (battleIndex st) (Z.of_nat (length snapshots)) ∧
    downloads out = [].
Proof.
  induction snapshots as [|s rest IH]; intros st r rid Hrun Hid Hvalid Hfresh.
  - exists [], [], (lastLoggedWaveIndex st). split; [|done].
    destruct st; simpl in *. subst.
    by rewrite app_nil_r, Z.add_0_r.
  - simpl in Hvalid. apply andb_prop in Hvalid as [Hs Hrest].
    apply valid_snapshot_inv in Hs as (Hts & e & He & Hne).
    simpl in Hfresh.
    assert (same_wave (waveIndex_of s) (lastLoggedWaveIndex st) = false
            ∧ fresh_waves (if strict_eq (waveIndex_of s) JNull
                           then lastLoggedWaveIndex st else waveIndex_of s)
                          rest = true) as [Hw Hfresh'].
    { unfold same_wave.
      destruct (strict_eq (waveIndex_of s) JNull); [done|].
      apply andb_prop in Hfresh as [Hn ?].
      apply negb_true_iff in Hn. by rewrite Hn. }
    destruct (log_appends s st r rid e Hrun Hid Hts He Hne Hw)
      as (enc & out1 & Hlog & Hidx & _ & _ & _ & Hout1 & _).
    destruct (IH {| currentRun := Some r;
                    encounterBuffer := encounterBuffer st ++ [enc];
                    battleIndex := battleIndex st + 1;
                    lastLoggedWaveIndex :=
                      if strict_eq (waveIndex_of s) JNull
                      then lastLoggedWaveIndex st else waveIndex_of s |}
                 r rid eq_refl Hid Hrest Hfresh')
      as (encs & out2 & last & Hdel & Hidxs & Hout2).
    simpl in Hdel, Hidxs.
    exists (enc :: encs), (out1 ++ out2), last. split; [|split].
    + simpl. rewrite (bind_returned _ _ _ _ _ _ Hlog), Hdel.
      unfold completion, final, effects; simpl.
      rewrite <- app_assoc. simpl.
      do 3 f_equal. lia.
    + rewrite fmap_cons, Hidx, Hidxs. simpl length.
      rewrite Nat2Z.inj_succ, (seqZ_cons (battleIndex st)) by lia.
      do 2 f_equal; lia.

    + by rewrite downloads_app, Hout1, Hout2.
Qed.

(** ** The properties of the capture model *)

(** C1. After [start()], N valid snapshots that each pass the
    deduplication, and [finalize()], exactly one document is emitted; its
    [total_battles] is N, it has N encounters, and their [battle_index]
    values are 0, ..., N-1 in append order. *)
Theorem session_document_counts
    start_time snapshots end_time runMeta st :
  forallb valid_snapshot snapshots = true →
  fresh_waves JNull snapshots = true →
  keeps_run_id runMeta = true →
  let N := length snapshots in
  let res := session start_time snapshots end_time runMeta st in
  ∃ doc name,
    completion res = Returned tt ∧
    downloads (effects res) =
      [{| url := dataUrl doc; filename := name; saveAs := false |}] ∧
    run doc !! "total_battles" = Some (JNum (Z.of_nat N)) ∧
    length (encounters doc) = N ∧
    battle_index <$> encounters doc = seqZ 0 (Z.of_nat N).
Proof.
  intros Hvalid Hfresh Hmeta N res.
  destruct (deliver_appends snapshots (started start_time)
              (new_run start_time) ("run_" +:+ start_time)
              eq_refl eq_refl Hvalid Hfresh)
    as (encs & out & last & Hdel & Hidxs & Hout).
  simpl in Hdel, Hidxs. rewrite Z.add_0_l in Hdel.
  set (st2 := {| currentRun := Some (new_run start_time);

                 encounterBuffer := encs;
                 battleIndex := Z.of_nat (length snapshots);
                 lastLoggedWaveIndex := last |}) in *.
  destruct (keeps_run_id_string end_time runMeta encs (new_run start_time)
              ("run_" +:+ start_time) Hmeta eq_refl) as [rid Hrid].
  pose proof (endRun_emits end_time runMeta st2 _ rid eq_refl Hrid) as Hend.
  assert (length encs = N) as Hlen.
  { apply (f_equal length) in Hidxs.
    rewrite length_fmap, length_seqZ in Hidxs. lia. }
  assert (∃ d log1 log2,
            res = (Returned tt, idle,
                   ConsoleLog log1 :: out ++ [Download d; ConsoleLog log2]) ∧
            d = {| url := dataUrl
                     {| run := stamp_and_merge end_time runMeta encs
                                 (new_run start_time);
                        encounters := encs |};
                   filename :=
                     "pokerogue_runs/" +:+ replace_colons rid +:+ ".json";
                   saveAs := false |})
    as (d & log1 & log2 & Hres & Hd).
  { eexists _, _, _. split; [|reflexivity].
    subst res. unfold session.
    rewrite (bind_returned _ _ _ _ _ _ (startRun_run start_time st)).
    cbv beta.
    rewrite (bind_returned _ _ _ _ _ _ Hdel). cbv beta.
    rewrite Hend. reflexivity. }
  rewrite Hres, Hd.
  eexists _, _. split; [|split; [|split; [|split]]].
  - reflexivity.
  - unfold effects. simpl. rewrite downloads_app, Hout. reflexivity.
  - simpl. rewrite merged_total_battles, Hlen. reflexivity.

  - exact Hlen.
  - simpl. exact Hidxs.
Qed.

Lemma strict_eq_num w v : strict_eq (JNum w) v = true ↔ v = JNum w.
Proof.
  destruct v; simpl; split; try done.
  - by intros ->%Z.eqb_eq.
  - intros [= ->]. apply Z.eqb_refl.
Qed.

Lemma waveIndex_of_num s w :
  get s "waveIndex" = JNum w → waveIndex_of s = JNum w.
Proof. unfold waveIndex_of. by intros ->. Qed.

Lemma same_wave_num w last :
  same_wave (JNum w) last = true ↔ last = JNum w.
Proof. unfold same_wave. simpl. apply strict_eq_num. Qed.

Lemma same_wave_num_false w last :
  last ≠ JNum w → same_wave (JNum w) last = false.
Proof.
  intros Hne. destruct (same_wave (JNum w) last) eqn:E; [|done].
  by apply same_wave_num in E.
Qed.

(** C2. Deduplication compares with the wave index logged last, and
    with nothing else.  In an active run whose [run_id] converts to a
    string (the id of every encounter starts with it), a valid snapshot
    of wave [w] is dropped exactly when the cursor holds [w]; two
    consecutive snapshots of a new wave [w] add exactly one encounter;
    and the waves [w], [w'], [w] with [w ≠ w'] (5, 6, 5) add three, the
    cursor holding [w'] when [w] comes back. *)
Theorem dedup_against_last_wave_only st r rid a a' b (w w' : Z) :
  currentRun st = Some r →
  to_string (field r "run_id") = Some rid →
  valid_snapshot a = true →
  valid_snapshot a' = true →
  valid_snapshot b = true →
  get a "waveIndex" = JNum w →
  get a' "waveIndex" = JNum w →
  get b "waveIndex" = JNum w' →
  (encounterBuffer (final (logEncounterFromSession a st))
     = encounterBuffer st ↔ lastLoggedWaveIndex st = JNum w) ∧
  (lastLoggedWaveIndex st ≠ JNum w →
     ∃ e,
       completion (deliver [a; a'] st) = Returned tt ∧
       encounterBuffer (final (deliver [a; a'] st))
         = encounterBuffer st ++ [e] ∧
       lastLoggedWaveIndex (final (deliver [a; a'] st)) = JNum w) ∧
  (lastLoggedWaveIndex st ≠ JNum w → w ≠ w' →
     ∃ e1 e2 e3,
       completion (deliver [a; b; a'] st) = Returned tt ∧
       encounterBuffer (final (deliver [a; b; a'] st))
         = encounterBuffer st ++ [e1; e2; e3]).
Proof.
  intros Hrun Hid Ha Ha' Hb Hwa Hwa' Hwb.
  apply waveIndex_of_num in Hwa, Hwa', Hwb.
  pose proof Ha as Hva.
  apply valid_snapshot_inv in Ha as (Hta & ea & Hea & Hna).
  assert (lastLoggedWaveIndex st ≠ JNum w →
          ∃ e out,
            logEncounterFromSession a st =
              (Returned tt,
               {| currentRun := Some r;
                  encounterBuffer := encounterBuffer st ++ [e];
                  battleIndex := battleIndex st + 1;
                  lastLoggedWaveIndex := JNum w |}, out)) as Hfirst.
  { intros Hne.
    destruct (log_appends a st r rid ea Hrun Hid Hta Hea Hna)
      as (e & out & Hlog & _).
    { rewrite Hwa. by apply same_wave_num_false. }
    rewrite Hwa in Hlog. simpl in Hlog. eauto. }
  split; [|split].
  - split.
    + intros Hbuf.
      destruct (strict_eq (JNum w) (lastLoggedWaveIndex st)) eqn:E;
        [by apply strict_eq_num|].
      assert (lastLoggedWaveIndex st ≠ JNum w) as Hne.
      { intros Hlast%strict_eq_num. congruence. }
      destruct (Hfirst Hne) as (e & out & Hlog).

      rewrite Hlog in Hbuf. simpl in Hbuf.
      apply (f_equal length) in Hbuf. rewrite length_app in Hbuf.
      simpl in Hbuf. lia.
    + intros Hlast. rewrite log_same_wave; [done|].
      rewrite Hwa. by apply same_wave_num.
  - intros Hne. destruct (Hfirst Hne) as (e & out & Hlog).
    set (st1 := {| currentRun := Some r;
                   encounterBuffer := encounterBuffer st ++ [e];
                   battleIndex := battleIndex st + 1;
                   lastLoggedWaveIndex := JNum w |}) in *.
    assert (logEncounterFromSession a' st1 = (Returned tt, st1, []))
      as Hlog'.
    { apply log_same_wave. rewrite Hwa'. by apply same_wave_num. }
    exists e. simpl.
    rewrite (bind_returned _ _ _ _ _ _ Hlog). cbv beta.
    rewrite (bind_returned _ _ _ _ _ _ Hlog'). done.

  - intros Hne Hww.
    destruct (deliver_appends [a; b; a'] st r rid Hrun Hid)
      as (encs & out & last & Hdel & Hidxs & _).
    { simpl. by rewrite Hva, Hb, Ha'. }
    { cbn [fresh_waves]. rewrite Hwa, Hwb, Hwa'.
      destruct (strict_eq (JNum w) (lastLoggedWaveIndex st)) eqn:E;
        [by apply strict_eq_num in E|].
      cbn [strict_eq].
      by rewrite (proj2 (Z.eqb_neq w w')), (proj2 (Z.eqb_neq w' w)) by lia. }

    apply (f_equal length) in Hidxs.
    rewrite length_fmap, length_seqZ in Hidxs.
    destruct encs as [|e1 [|e2 [|e3 [|]]]]; try (simpl in Hidxs; lia).
    exists e1, e2, e3. by rewrite Hdel.
Qed.

(** C6. A snapshot is rejected as a no-op when no run is active, when
    the snapshot is absent, or when its [enemyParty] is missing or empty:
    the call returns without an error, the state (buffer, battle index,
    wave cursor) is the one before, and nothing is output. *)
Theorem reject_is_noop s st :
  currentRun st = None ∨
  (s = JUndefined ∨ s = JNull) ∨
  get s "enemyParty" = JUndefined ∨
  get s "enemyParty" = JArr [] →
  logEncounterFromSession s st = (Returned tt, st, []).
Proof.
  intros [Hrun|[[-> | ->]|[Hparty|Hparty]]].
  - by apply log_inactive.
  - by apply log_absent.
  - by apply log_absent.
  - apply log_no_enemy. unfold firstEnemy_of. by rewrite Hparty.
  - apply log_no_enemy. unfold firstEnemy_of. by rewrite Hparty.
Qed.

(** C9. The encounter appended for a snapshot records [enemy_level] as
    [null] whenever the [level] of the first enemy is falsy; a level of 0
    in particular is recorded as [null], not as 0.  A truthy level is
    recorded as it is.  (A snapshot is appended when a run is active
    whose [run_id] converts to a string, the snapshot has a first enemy
    and its wave is not the one logged last.) *)
Theorem falsy_level_recorded_as_null s st r rid e :
  currentRun st = Some r →
  to_string (field r "run_id") = Some rid →
  truthy s = true →
  firstEnemy_of s = Some e →
  nullish e = false →
  same_wave (waveIndex_of s) (lastLoggedWaveIndex st) = false →
  ∃ enc,
    encounterBuffer (final (logEncounterFromSession s st))
      = encounterBuffer st ++ [enc] ∧
    (truthy (get e "level") = false → enemy_level enc = JNull) ∧
    (get e "level" = JNum 0 → enemy_level enc = JNull) ∧
    (truthy (get e "level") = true → enemy_level enc = get e "level").
Proof.
  intros Hrun Hid Hs He Hne Hw.
  destruct (log_appends s st r rid e Hrun Hid Hs He Hne Hw)
    as (enc & out & Hlog & _ & _ & _ & Hlevel & _).
  exists enc. rewrite Hlog, Hlevel. unfold or_else.
  split; [done|]. split; [|split].
  - by intros ->.
  - by intros ->.
  - by intros ->.
Qed.

(** C7. A successful [finalize] (a run is active and the call returns)
    asks for exactly one download and leaves the recorder cleared: no
    active run, an empty buffer, battle index 0 and no wave cursor; a
    new [start()] then begins a fresh run. *)
Theorem finalize_emits_once_and_clears now runMeta st r :
  currentRun st = Some r →
  completion (endRun now runMeta st) = Returned tt →
  let st' := final (endRun now runMeta st) in
  length (downloads (effects (endRun now runMeta st))) = 1 ∧
  currentRun st' = None ∧
  encounterBuffer st' = [] ∧
  battleIndex st' = 0%Z ∧
  lastLoggedWaveIndex st' = JNull ∧
  ∀ now',
    completion (startRun now' st') = Returned tt ∧
    currentRun (final (startRun now' st')) = Some (new_run now') ∧
    encounterBuffer (final (startRun now' st')) = [].
Proof.
  intros Hrun Hret.
  apply (endRun_returns_iff now runMeta st r Hrun) in Hret as [rid Hrid].
  rewrite (endRun_emits now runMeta st r rid Hrun Hrid). simpl.
  repeat split.
Qed.

(** Characters of strings. *)
Lemma list_ascii_of_append a b :
  list_ascii_of_string (a +:+ b) =
    list_ascii_of_string a ++ list_ascii_of_string b.
Proof. induction a as [|c a IH]; simpl; by rewrite ?IH. Qed.

Lemma replace_colons_chars s :
  list_ascii_of_string (replace_colons s) =
    (λ c, if Ascii.eqb c ":" then "-"%char else c) <$>
      list_ascii_of_string s.
Proof. induction s as [|c s IH]; simpl; by rewrite ?IH. Qed.

Lemma replace_colons_no_colon s :
  ":"%char ∉ list_ascii_of_string (replace_colons s).
Proof.
  induction s as [|c s IH]; simpl.
  - apply not_elem_of_nil.
  - apply not_elem_of_cons. split; [|done].
    destruct (Ascii.eqb c ":") eqn:E; [done|].
    intros <-. by rewrite Ascii.eqb_refl in E.
Qed.

Lemma field_is_string (o : gmap string Val) k v :
  field o k = JStr v → o !! k = Some (JStr v).
Proof. unfold field. destruct (o !! k); simpl; congruence. Qed.

(** C8. The document of a finalized run is written to a path made from
    the run id: [pokerogue_runs/<id>.json], where [<id>] is the [run_id]
    of the emitted run with every colon replaced by a hyphen and every
    other character kept; no colon is left in the path. *)
Theorem emission_path_keyed_by_run_id now runMeta st r :
  currentRun st = Some r →
  completion (endRun now runMeta st) = Returned tt →
  ∃ doc rid safe,
    downloads (effects (endRun now runMeta st)) =
      [{| url := dataUrl doc;
          filename := "pokerogue_runs/" +:+ safe +:+ ".json";
          saveAs := false |}] ∧
    run doc !! "run_id" = Some (JStr rid) ∧
    list_ascii_of_string safe =
      (λ c, if Ascii.eqb c ":" then "-"%char else c) <$>
        list_ascii_of_string rid ∧
    ":"%char ∉
      list_ascii_of_string ("pokerogue_runs/" +:+ safe +:+ ".json").
Proof.
  intros Hrun Hret.
  apply (endRun_returns_iff now runMeta st r Hrun) in Hret as [rid Hrid].
  rewrite (endRun_emits now runMeta st r rid Hrun Hrid).
  eexists _, rid, (replace_colons rid).
  split; [reflexivity|]. split; [|split].
  - simpl. by apply field_is_string.
  - apply replace_colons_chars.
  - rewrite !list_ascii_of_append, !not_elem_of_app.
    split; [|split].
    + by apply (bool_decide_unpack _).
    + apply replace_colons_no_colon.
    + by apply (bool_decide_unpack _).
Qed.

(** C5, as the code has it.  [finalize(metadata)] merges the metadata
    object into the run by overwriting, with [Object.assign].  The merge
    itself sets every field of [metadata] other than [__proto__]
    (whatever its value, [null] included) and keeps every field that
    [metadata] does not have.  In the emitted run, every field of
    [metadata] other than [__proto__] has the value given there and every
    field absent from it has its prior value, the two fields that
    [finalize] itself assigns apart ([total_battles], and [end_timestamp]
    when absent).  After [start()], [finalize({ result: "WIN" })] emits a
    run whose [result] is ["WIN"] and whose other metadata fields are
    still [null]. *)
Theorem finalize_merges_metadata now (meta : gmap string Val) st r :
  currentRun st = Some r →
  completion (endRun now (JObj meta) st) = Returned tt →
  (∀ (target : gmap string Val) k,
     (∀ v, meta !! k = Some v → k ≠ "__proto__" →
           assign target (JObj meta) !! k = Some v) ∧
     (meta !! k = None → assign target (JObj meta) !! k = target !! k)) ∧
  (∃ doc name,
     downloads (effects (endRun now (JObj meta) st)) =
       [{| url := dataUrl doc; filename := name; saveAs := false |}] ∧
     (∀ k v, meta !! k = Some v → k ≠ "total_battles" → k ≠ "__proto__" →
             run doc !! k = Some v) ∧
     (∀ k, meta !! k = None → k ≠ "end_timestamp" → k ≠ "total_battles" →
           run doc !! k = r !! k)) ∧
  (∀ start_time st0,
     ∃ doc name,
       downloads (effects ((startRun start_time;; endRun now win_meta) st0)) =
         [{| url := dataUrl doc; filename := name; saveAs := false |}] ∧
       run doc !! "result" = Some (JStr "WIN") ∧
       run doc !! "final_stage" = Some JNull ∧
       run doc !! "final_boss" = Some JNull ∧
       run doc !! "starter_species" = Some JNull ∧
       run doc !! "run_tag" = Some JNull).
Proof.
  intros Hrun Hret. split; [|split].
  - intros target k. split.
    + intros v Hk Hne. rewrite assign_lookup by done. simpl. by rewrite Hk.
    + intros Hk. by apply assign_lookup_absent.
  - apply (endRun_returns_iff now (JObj meta) st r Hrun) in Hret
      as [rid Hrid].
    rewrite (endRun_emits now (JObj meta) st r rid Hrun Hrid).
    eexists _, _. split; [reflexivity|]. simpl. split.
    + intros k v Hk Hne Hproto. rewrite merged_lookup by done. simpl.
      by rewrite Hk.
    + intros k Hk Hne1 Hne2. rewrite merged_lookup_absent by done.
      by rewrite lookup_insert_ne.
  - intros start_time st0.
    rewrite (bind_returned _ _ _ _ _ _ (startRun_run start_time st0)).
    cbv beta.
    rewrite (endRun_emits now win_meta (started start_time)
               (new_run start_time) ("run_" +:+ start_time) eq_refl eq_refl).
    eexists _, _. split; [reflexivity|]. simpl.
    rewrite !merged_lookup by done. repeat split.
Qed.

(** C10, as the code has it.  The merge of [finalize] is not filtered by
    the tracker.  Whether the document is emitted or the call throws, the
    run object after the assignments has, for every key of the metadata
    other than [total_battles] and [__proto__], the value the metadata
    gives it: a recognised key or not, [run_id], [start_timestamp] and
    [end_timestamp] included (the end stamp, set before the merge, stays
    only when the metadata has none).  [total_battles] is the length of
    the buffer whatever the metadata says, being assigned after the
    merge. *)
Theorem finalize_merge_is_unfiltered now runMeta st r :
  currentRun st = Some r →
  let res := endRun now runMeta st in
  ∃ r' : gmap string Val,
    ((completion res = Returned tt ∧
      ∃ name,
        downloads (effects res) =
          [{| url := dataUrl {| run := r';
                                encounters := encounterBuffer st |};
              filename := name; saveAs := false |}]) ∨
     (completion res = Thrown "TypeError" ∧
      currentRun (final res) = Some r' ∧
      downloads (effects res) = [])) ∧
    (∀ k v, own_enumerable runMeta !! k = Some v →
            k ≠ "total_battles" → k ≠ "__proto__" →
            r' !! k = Some v) ∧
    (own_enumerable runMeta !! "end_timestamp" = None →
     r' !! "end_timestamp" = Some (JStr now)) ∧
    r' !! "total_battles" =
      Some (JNum (Z.of_nat (length (encounterBuffer st)))).
Proof.
  intros Hrun res.
  exists (stamp_and_merge now runMeta (encounterBuffer st) r).
  split; [|split; [|split]].
  - destruct (field (stamp_and_merge now runMeta (encounterBuffer st) r)
                "run_id") as [| | | | |rid| |] eqn:E.
    6: { left. subst res.
         rewrite (endRun_emits now runMeta st r rid Hrun E). eauto. }
    all: right; subst res;
      rewrite (endRun_throws now runMeta st r Hrun)
        by (intros ?; rewrite E; discriminate);
      done.
  - intros k v Hk Hne Hproto. rewrite merged_lookup by done. by rewrite Hk.
  - intros Hk. rewrite merged_lookup by done. rewrite Hk.
    apply lookup_insert_eq.
  - apply merged_total_battles.
Qed.

(** C3, as the code has it.  [finalize] without an active run is a
    no-op that returns normally: the state stays, nothing is downloaded,
    the only output is a console warning; and the [END_RUN] request is
    answered [{ success: true }] all the same, so the failure is not
    reported to the caller. *)
Theorem finalize_without_run_warns_only now runMeta st :
  currentRun st = None →
  endRun now runMeta st =
    (Returned tt, st,
     [ConsoleWarn
        [JStr "Pokerogue tracker: endRun called but no active run"]]) ∧
  downloads (effects (endRun now runMeta st)) = [] ∧
  completion (onMessage now (END_RUN runMeta) st)
    = Returned success_response ∧
  final (onMessage now (END_RUN runMeta) st) = st ∧
  downloads (effects (onMessage now (END_RUN runMeta) st)) = [].
Proof.
  intros Hrun.
  pose proof (endRun_inactive now runMeta st Hrun) as Hend.
  pose proof (endRun_inactive now (or_else runMeta (JObj ∅)) st Hrun)
    as Hend'.
  split; [done|]. split; [by rewrite Hend|].
  unfold onMessage.
  rewrite (bind_returned _ _ _ _ _ _ Hend'). done.
Qed.

(** C4, as the code has it.  [start()] has no precondition and never
    fails.  Whatever the state, a run being active or not, it installs a
    fresh run in the single slot, empties the buffer and resets the
    battle index and the wave cursor; it warns of nothing, and its one
    console line is the one of a first start. *)
Theorem start_replaces_any_run now st :
  completion (startRun now st) = Returned tt ∧
  currentRun (final (startRun now st)) = Some (new_run now) ∧
  encounterBuffer (final (startRun now st)) = [] ∧
  battleIndex (final (startRun now st)) = 0%Z ∧
  lastLoggedWaveIndex (final (startRun now st)) = JNull ∧
  warnings (effects (startRun now st)) = [] ∧
  startRun now st = startRun now idle.
Proof. repeat split. Qed.

(** ** Every call, on every state *)

#[local] Abbreviation perform :=
  (perform convertPokemonId JSON_stringify encodeURIComponent).
#[local] Abbreviation perform_all :=
  (perform_all convertPokemonId JSON_stringify encodeURIComponent).

(** The three ways [logEncounterFromSession] runs. *)
Lemma log_cases s st :
  logEncounterFromSession s st = (Returned tt, st, []) ∨
  logEncounterFromSession s st = (Thrown "TypeError", st, []) ∨
  ∃ r e enc out,
    currentRun st = Some r ∧
    firstEnemy_of s = Some e ∧
    same_wave (waveIndex_of s) (lastLoggedWaveIndex st) = false ∧
    logEncounterFromSession s st =
      (Returned tt,
       {| currentRun := Some r;
          encounterBuffer := encounterBuffer st ++ [enc];
          battleIndex := battleIndex st + 1;
          lastLoggedWaveIndex :=
            if strict_eq (waveIndex_of s) JNull
            then lastLoggedWaveIndex st else waveIndex_of s |},
       out) ∧
    battle_index enc = battleIndex st ∧
    (∃ rid, to_string (field r "run_id") = Some rid ∧
            encounter_id enc = encounterId_of rid (battleIndex st)) ∧
    enemy_species enc = convertPokemonId (get e "species") ∧
    enemy_level enc = or_else (get e "level") JNull ∧
    downloads out = [] ∧ warnings out = [].
Proof.
  destruct (currentRun st) as [r|] eqn:Hrun;
    [|left; by apply log_inactive].
  destruct (truthy s) eqn:Hs; [|left; by apply log_absent].
  destruct (firstEnemy_of s) as [e|] eqn:He;
    [|left; by apply log_no_enemy].
  destruct (same_wave (waveIndex_of s) (lastLoggedWaveIndex st)) eqn:Hw;
    [left; by apply log_same_wave|].
  destruct (nullish e) eqn:Hne;
    [right; left; by apply (log_throws s st r e)|].
  destruct (to_string (field r "run_id")) as [rid|] eqn:Hid;
    [|right; left; by apply (log_throws_at_run_id s st r e)].
  right; right.
  destruct (log_appends s st r rid e Hrun Hid Hs He Hne Hw)
    as (enc & out & Hlog & Hidx & Henc & Hspecies & Hlevel & Hout & Hwarn).
  exists r, e, enc, out. repeat split; try done. by exists rid.
Qed.

Lemma endRun_cases now m st :
  (currentRun st = None ∧
   endRun now m st =
     (Returned tt, st,
      [ConsoleWarn
         [JStr "Pokerogue tracker: endRun called but no active run"]])) ∨
  (∃ r rid log,
     currentRun st = Some r ∧
     field (stamp_and_merge now m (encounterBuffer st) r) "run_id"
       = JStr rid ∧
     endRun now m st =
       (Returned tt, idle,
        [Download
           {| url := dataUrl
                       {| run := stamp_and_merge now m (encounterBuffer st) r;
                          encounters := encounterBuffer st |};
              filename := "pokerogue_runs/" +:+ replace_colons rid +:+ ".json";
              saveAs := false |};
         ConsoleLog log])) ∨
  (∃ r,
     currentRun st = Some r ∧
     (∀ rid, field (stamp_and_merge now m (encounterBuffer st) r) "run_id"
               ≠ JStr rid) ∧
     endRun now m st =
       (Thrown "TypeError",
        {| currentRun := Some (stamp_and_merge now m (encounterBuffer st) r);
           encounterBuffer := encounterBuffer st;
           battleIndex := battleIndex st;
           lastLoggedWaveIndex := lastLoggedWaveIndex st |},
        [])).
Proof.
  destruct (currentRun st) as [r|] eqn:Hrun.
  - right.
    destruct (field (stamp_and_merge now m (encounterBuffer st) r) "run_id")
      as [| | | | |rid| |] eqn:E.
    6: { left. eexists r, rid, _. split; [done|]. split; [done|].
         by apply endRun_emits. }
    all: right; exists r; split; [done|];
      assert (∀ rid, field (stamp_and_merge now m (encounterBuffer st) r)
                       "run_id" ≠ JStr rid) as Hne
        by (intros ?; rewrite E; discriminate);
      split; [done|]; by apply endRun_throws.
  - left. split; [done|]. by apply endRun_inactive.
Qed.

Lemma waveIndex_of_cursor_ok s : cursor_ok (waveIndex_of s) = true.
Proof.
  unfold waveIndex_of, cursor_ok.
  destruct (String.eqb (typeof (get s "waveIndex")) "number") eqn:E.
  - rewrite E. apply orb_true_r.
  - reflexivity.
Qed.

Lemma seqZ_snoc (n : nat) : seqZ 0 (Z.of_nat (S n)) = seqZ 0 (Z.of_nat n) ++ [Z.of_nat n].
Proof.
  rewrite Nat2Z.inj_succ, <- Z.add_1_r, seqZ_app by lia.
  by rewrite Z.add_0_l.
Qed.

Lemma consistent_idle : consistent idle.
Proof. repeat split. Qed.

(** Each call keeps the variables consistent, however it completes. *)
Lemma perform_consistent c st :
  consistent st → consistent (final (perform c st)).
Proof.
  intros Hst. pose proof Hst as (Hidx & Hseq & Hcur & Hnone).
  destruct c as [now|now m|s]; simpl.
  - repeat split.
  - destruct (endRun_cases now m st)
      as [[Hrun ->]|[(r & rid & log & Hrun & _ & ->)|(r & Hrun & _ & ->)]].
    + exact Hst.
    + apply consistent_idle.
    + unfold final, consistent; simpl. by repeat split.
  - destruct (log_cases s st)
      as [->|[->|(r & e & enc & out & Hrun & _ & _ & -> & Henc & _)]].
    + exact Hst.
    + exact Hst.
    + unfold final, consistent; simpl. split; [|split; [|split]].
      * rewrite length_app. simpl. lia.
      * rewrite fmap_app, length_app, Nat.add_1_r, seqZ_snoc. simpl.
        by rewrite Hseq, Henc, Hidx.
      * destruct (strict_eq (waveIndex_of s) JNull); [done|].
        apply waveIndex_of_cursor_ok.
      * done.
Qed.

Lemma perform_all_consistent calls : ∀ st,
  consistent st → consistent (perform_all calls st).1.
Proof.
  induction calls as [|c rest IH]; intros st Hst; simpl; [done|].
  apply IH. by apply perform_consistent.
Qed.

(** What a call asks to download is a document in step with its
    encounters, when the variables were consistent. *)
Lemma perform_downloads c st d :
  consistent st →
  d ∈ downloads (effects (perform c st)) →
  ∃ doc, url d = dataUrl doc ∧ well_counted doc.
Proof.
  intros (Hidx & Hseq & _). destruct c as [now|now m|s]; simpl.
  - intros []%elem_of_nil.
  - destruct (endRun_cases now m st)
      as [[Hrun ->]|[(r & rid & log & Hrun & _ & ->)|(r & Hrun & _ & ->)]].
    + intros []%elem_of_nil.
    + intros ->%list_elem_of_singleton. eexists. split; [reflexivity|].
      split; simpl; [apply merged_total_battles | exact Hseq].
    + intros []%elem_of_nil.
  - destruct (log_cases s st)
      as [->|[->|(r & e & enc & out & _ & _ & _ & -> & _ & _ & _ & _ & Hout & _)]].
    + intros []%elem_of_nil.
    + intros []%elem_of_nil.
    + unfold effects; simpl. rewrite Hout. intros []%elem_of_nil.
Qed.

(** X1. Whatever calls of [startRun], [endRun] and
    [logEncounterFromSession] are made, in whatever order and with
    whatever arguments (the throwing ones included), the tracking variables
    stay consistent: [battleIndex] is the length of [encounterBuffer], the
    buffered encounters carry the indices 0, 1, 2, ... in order, the wave
    cursor is [null] or a number, and when no run is active the buffer is
    empty and the cursor [null]. *)
Theorem tracking_variables_stay_consistent calls st :
  consistent st →
  consistent (perform_all calls st).1.
Proof. apply perform_all_consistent. Qed.

(** X2. Every document that any sequence of calls makes the tracker
    download is in step with itself: its [total_battles] is the number of
    its encounters, and their [battle_index] values are 0, 1, 2, ... in
    order, also after dropped snapshots, exceptions and restarts. *)
Theorem every_emitted_document_is_well_counted calls : ∀ st d,
  consistent st →
  d ∈ downloads (perform_all calls st).2 →
  ∃ doc, url d = dataUrl doc ∧ well_counted doc.
Proof.
  induction calls as [|c rest IH]; intros st d Hst; simpl.
  - intros []%elem_of_nil.
  - rewrite downloads_app, elem_of_app. intros [Hd|Hd].
    + by apply (perform_downloads c st).
    + apply (IH (final (perform c st))); [|done].
      by apply perform_consistent.
Qed.

(** X3. Every started run is emitted at most once: over any sequence of
    calls, the number of downloads plus the run still active at the end
    is at most the number of [startRun] calls plus the run active at the
    beginning; and there are at most as many downloads as [endRun] calls.
    Neither [startRun] nor [logEncounterFromSession] ever downloads. *)
Theorem at_most_one_download_per_run calls : ∀ st,
  let res := perform_all calls st in
  (length (downloads res.2) + active res.1
     ≤ length (filter is_start calls) + active st)%nat ∧
  (length (downloads res.2) ≤ length (filter is_end calls))%nat.
Proof.
  induction calls as [|c rest IH]; intros st; simpl; [lia|].
  specialize (IH (final (perform c st))). simpl in IH.
  rewrite downloads_app, length_app.
  assert ((length (downloads (effects (perform c st)))
             + active (final (perform c st))
           ≤ (if is_start c then 1 else 0) + active st)%nat ∧
          (length (downloads (effects (perform c st)))
           ≤ (if is_end c then 1 else 0))%nat) as [H1 H2].
  { destruct c as [now|now m|s]; simpl.
    - unfold active; simpl. lia.
    - destruct (endRun_cases now m st)
        as [[Hrun ->]|[(r & rid & log & Hrun & _ & ->)|(r & Hrun & _ & ->)]];
        unfold effects, final, active; simpl; rewrite ?Hrun; simpl; lia.
    - destruct (log_cases s st)
        as [->|[->|(r & e & enc & out & Hrun & _ & _ & -> & _ & _ & _ & _ & Hout & _)]];
        unfold effects, final, active; simpl; rewrite ?Hout, ?Hrun; simpl; lia. }
  rewrite !filter_cons.
  destruct (is_start c), (is_end c); simpl in *;
    repeat case_decide; simpl; try done; lia.
Qed.

(** Calls of [logEncounterFromSession] only append. *)
Lemma perform_logs_frame (snapshots : list Val) : ∀ st,
  let res := perform_all (CallLog <$> snapshots) st in
  currentRun res.1 = currentRun st ∧
  encounterBuffer st `prefix_of` encounterBuffer res.1 ∧
  (length (encounterBuffer res.1)
     ≤ length (encounterBuffer st) + length snapshots)%nat ∧
  (battleIndex res.1 - battleIndex st
     = Z.of_nat (length (encounterBuffer res.1))
       - Z.of_nat (length (encounterBuffer st)))%Z ∧
  downloads res.2 = [] ∧
  warnings res.2 = [].
Proof.
  induction snapshots as [|s rest IH]; intros st; cbn zeta.
  - simpl. repeat split; [done | lia | lia].
  - rewrite fmap_cons. simpl.
    change (list_fmap Val Call CallLog rest) with (CallLog <$> rest).
    specialize (IH (final (logEncounterFromSession s st))). cbn zeta in IH.
    destruct IH as (Hrun' & Hpre' & Hlen' & Hidx' & Hdl' & Hwarn').
    rewrite downloads_app, Hdl'. unfold warnings in *.
    rewrite omap_app, Hwarn'.
    destruct (log_cases s st)
      as [E|[E|(r & e & enc & out & Hrun & _ & _ & E & _ & _ & _ & _ & Hout & Hw)]];
      rewrite E in *; unfold final, effects in *; simpl in *.
    + repeat split; try done; lia.
    + repeat split; try done; lia.
    + rewrite length_app in *. simpl in *.
      rewrite Hout. unfold warnings in Hw. rewrite Hw.
      split; [congruence|]. split; [|repeat split; lia].
      etrans; [|exact Hpre']. by apply prefix_app_r.
Qed.

(** X4. Snapshots only ever append: whatever snapshots are handed to
    [logEncounterFromSession] one call after the other (dropped and
    throwing ones included), the active run is the same object, the buffer
    afterwards starts with the buffer before, it grew by at most one
    encounter per snapshot, [battleIndex] grew by as much, and nothing was
    downloaded and no warning output. *)
Theorem snapshots_only_append (snapshots : list Val) : ∀ st,
  let res := perform_all (CallLog <$> snapshots) st in
  currentRun res.1 = currentRun st ∧
  encounterBuffer st `prefix_of` encounterBuffer res.1 ∧
  (length (encounterBuffer res.1)
     ≤ length (encounterBuffer st) + length snapshots)%nat ∧
  (battleIndex res.1 - battleIndex st
     = Z.of_nat (length (encounterBuffer res.1))
       - Z.of_nat (length (encounterBuffer st)))%Z ∧
  downloads res.2 = [] ∧
  warnings res.2 = [].
Proof. apply perform_logs_frame. Qed.


Lemma deliver_same_wave burst (w : Z) : ∀ st,
  lastLoggedWaveIndex st = JNum w →
  Forall (λ s, get s "waveIndex" = JNum w) burst →
  deliver burst st = (Returned tt, st, []).
Proof.
  induction burst as [|s rest IH]; intros st Hlast Hall; [done|].
  apply Forall_cons in Hall as [Hs Hrest]. simpl.
  assert (logEncounterFromSession s st = (Returned tt, st, [])) as Hlog.
  { apply log_same_wave. rewrite (waveIndex_of_num s w Hs).
    by apply same_wave_num. }
  rewrite (bind_returned _ _ _ _ _ _ Hlog). cbv beta.
  by rewrite (IH st Hlast Hrest).
Qed.

(** X6. A burst of snapshots of one wave has the effect of its first
    snapshot: when a valid snapshot of wave [w] is followed by any number
    of snapshots carrying the same [w], delivering them all completes,
    leaves the state and has the output of logging the first one alone
    (one encounter added if [w] is new, none if [w] was logged last). *)
Theorem burst_is_logged_as_its_first_snapshot s burst (w : Z) st :
  valid_snapshot s = true →
  Forall (λ x, get x "waveIndex" = JNum w) (s :: burst) →
  deliver (s :: burst) st = logEncounterFromSession s st.
Proof.
  intros Hvalid [Hs Hburst]%Forall_cons.
  apply valid_snapshot_inv in Hvalid as (Hts & e & He & Hne).
  pose proof (waveIndex_of_num s w Hs) as Hw.
  assert ((∃ st1 out,
             logEncounterFromSession s st = (Returned tt, st1, out) ∧
             deliver burst st1 = (Returned tt, st1, [])) ∨
          logEncounterFromSession s st = (Thrown "TypeError", st, []))
    as [(st1 & out & Hlog & Hrest)|Hlog].
  { destruct (currentRun st) as [r|] eqn:Hrun.
    - destruct (same_wave (waveIndex_of s) (lastLoggedWaveIndex st)) eqn:Hsame.
      + left. exists st, []. split; [by apply log_same_wave|].
        apply (deliver_same_wave burst w); [|done].
        rewrite Hw in Hsame. by apply same_wave_num in Hsame.
      + destruct (to_string (field r "run_id")) as [rid|] eqn:Hid;
          [|right; by apply (log_throws_at_run_id s st r e)].
        left.
        destruct (log_appends s st r rid e Hrun Hid Hts He Hne Hsame)
          as (enc & out & Hlog & _).
        rewrite Hw in Hlog. simpl in Hlog.
        eexists _, out. split; [exact Hlog|].
        by apply (deliver_same_wave burst w).
    - left. exists st, []. split; [by apply log_inactive|].
      clear Hburst Hs. induction burst as [|x rest IH]; [done|]. simpl.
      rewrite (bind_returned _ _ _ _ _ _ (log_inactive x st Hrun)).
      cbv beta. by rewrite IH. }
  - simpl. rewrite (bind_returned _ _ _ _ _ _ Hlog). cbv beta.
    rewrite Hrest, Hlog. unfold completion, final, effects; simpl.
    by rewrite app_nil_r.
  - simpl. unfold mbind, Exec_bind. by rewrite Hlog.
Qed.

Lemma waveIndex_of_not_number s :
  typeof (get s "waveIndex") ≠ "number" → waveIndex_of s = JNull.
Proof.
  intros Hne. unfold waveIndex_of.
  destruct (String.eqb_spec (typeof (get s "waveIndex")) "number"); done.
Qed.

(** X7. A snapshot whose [waveIndex] is missing or not a number (a
    string such as ["5"], say) is never deduplicated: with a run active
    whose [run_id] converts to a string, valid snapshots of that kind are
    all appended, one encounter each with consecutive indices, and the
    wave cursor stays what it was. *)
Theorem snapshots_without_wave_are_all_logged snapshots : ∀ st r rid,
  currentRun st = Some r →
  to_string (field r "run_id") = Some rid →
  forallb valid_snapshot snapshots = true →
  Forall (λ s, typeof (get s "waveIndex") ≠ "number") snapshots →
  ∃ encs out,
    deliver snapshots st =
      (Returned tt,
       {| currentRun := Some r;
          encounterBuffer := encounterBuffer st ++ encs;
          battleIndex := battleIndex st + Z.of_nat (length snapshots);
          lastLoggedWaveIndex := lastLoggedWaveIndex st |},
       out) ∧
    length encs = length snapshots ∧
    battle_index <$> encs
      = seqZ (battleIndex st) (Z.of_nat (length snapshots)).
Proof.
  induction snapshots as [|s rest IH]; intros st r rid Hrun Hid Hvalid Hnone.
  - exists [], []. split; [|done].
    destruct st; simpl in *. subst. by rewrite app_nil_r, Z.add_0_r.
  - simpl in Hvalid. apply andb_prop in Hvalid as [Hs Hrest].
    apply Forall_cons in Hnone as [Hw Hnone].
    apply waveIndex_of_not_number in Hw.
    apply valid_snapshot_inv in Hs as (Hts & e & He & Hne).
    destruct (log_appends s st r rid e Hrun Hid Hts He Hne)
      as (enc & out1 & Hlog & Hidx & _).
    { by rewrite Hw. }
    rewrite Hw in Hlog. simpl in Hlog.
    destruct (IH {| currentRun := Some r;
                    encounterBuffer := encounterBuffer st ++ [enc];
                    battleIndex := battleIndex st + 1;
                    lastLoggedWaveIndex := lastLoggedWaveIndex st |}
                 r rid eq_refl Hid Hrest Hnone)
      as (encs & out2 & Hdel & Hlen & Hidxs).
    simpl in Hdel, Hidxs.
    exists (enc :: encs), (out1 ++ out2). split; [|split].
    + simpl. rewrite (bind_returned _ _ _ _ _ _ Hlog). cbv beta.
      rewrite Hdel. unfold completion, final, effects; simpl.
      rewrite <- app_assoc. simpl. do 3 f_equal. lia.
    + simpl. by rewrite Hlen.
    + rewrite fmap_cons, Hidx, Hidxs. simpl length.
      rewrite Nat2Z.inj_succ, (seqZ_cons (battleIndex st)) by lia.
      do 2 f_equal; lia.
Qed.

(** ** Encounter ids *)

Lemma pretty_N_char_not_zero (d : N) :
  (0 < d < 10)%N → pretty_N_char d ≠ "0"%char.
Proof.
  rewrite <- (N2Nat.id d). generalize (N.to_nat d). intros k [Hpos Hsmall].
  destruct k as [|k]; [lia|].
  do 9 (destruct k as [|k]; [by vm_compute|]). lia.
Qed.

Lemma pretty_N_char_not_t (d : N) : pretty_N_char d ≠ "t"%char.
Proof. unfold pretty_N_char. by repeat case_match. Qed.

(** A positive number is printed with a leading digit that is not 0. *)
Lemma pretty_N_go_leading (x : N) : ∀ s,
  (0 < x)%N →
  ∃ d r, pretty_N_go x s = String (pretty_N_char d) r ∧ (0 < d < 10)%N.
Proof.
  induction (N.lt_wf_0 x) as [x _ IH]; intros s Hpos.
  rewrite pretty_N_go_step by done.
  destruct (decide (x < 10)%N) as [Hsmall|Hbig].
  - rewrite (N.div_small x 10), (N.mod_small x 10), pretty_N_go_0 by done.
    by eexists x, _.
  - apply IH.
    + apply N.div_lt; lia.
    + apply N.div_str_pos; lia.
Qed.

Lemma pretty_no_leading_zero (z : Z) :
  (0 ≤ z)%Z → no_leading_zero (pretty z).
Proof.
  destruct z as [|p|p]; intros Hz; [by left | | lia].
  right. unfold pretty, pretty_Z, pretty, pretty_positive, pretty, pretty_N.
  case_decide; [done|].
  destruct (pretty_N_go_leading (N.pos p) EmptyString) as (d & r & -> & Hd);
    [lia|].
  eexists _, _. split; [done|]. by apply pretty_N_char_not_zero.
Qed.

Lemma pretty_N_char_not_underscore (d : N) : pretty_N_char d ≠ "_"%char.
Proof. unfold pretty_N_char. by repeat case_match. Qed.

Lemma pretty_nat_not_underscore (i : nat) s : pretty i ≠ String "_" s.
Proof.
  unfold pretty, pretty_nat, pretty, pretty_N.
  case_decide; [done|].
  destruct (pretty_N_go_leading (N.of_nat i) EmptyString) as (d & r & -> & _);
    [lia|].
  intros [= Hd _]. by apply pretty_N_char_not_underscore in Hd.
Qed.

Lemma pretty_nat_not_t (i : nat) s : pretty i ≠ String "t" s.
Proof.
  unfold pretty, pretty_nat, pretty, pretty_N.
  case_decide; [done|].
  destruct (pretty_N_go_leading (N.of_nat i) EmptyString) as (d & r & -> & _);
    [lia|].
  intros [= Hd _]. by apply pretty_N_char_not_t in Hd.
Qed.

Lemma padStart0_succ n s :
  (S (String.length s) ≤ n)%nat →
  padStart0 n s = String "0" (padStart0 (n - 1) s).
Proof.
  intros Hn. unfold padStart0.
  replace (n - String.length s)%nat
    with (S (n - 1 - String.length s)) by lia.
  simpl. by destruct (n - 1 - String.length s)%nat.
Qed.

Lemma padStart0_long n s :
  (n ≤ String.length s)%nat → padStart0 n s = s.
Proof.
  intros Hn. unfold padStart0.
  by replace (n - String.length s)%nat with 0%nat by lia.
Qed.

(** Padding keeps numerals apart, whatever the width. *)
Lemma padStart0_inj_numeral n : ∀ m a b,
  no_leading_zero a → no_leading_zero b →
  padStart0 n a = padStart0 m b → a = b.
Proof.
  assert (∀ k a b, no_leading_zero a → no_leading_zero b →
            (S (String.length b) ≤ k)%nat → a ≠ padStart0 k b) as Hclash.
  { intros k a b Ha Hb Hk E. rewrite padStart0_succ in E by done.
    destruct Ha as [->|(c & r & -> & Hc)]; [|congruence].
    injection E as E. destruct Hb as [->|(c & r & -> & _)].
    - destruct (decide (S 1 ≤ k - 1)%nat).
      + by rewrite padStart0_succ in E.
      + by rewrite padStart0_long in E by (simpl; lia).
    - destruct (decide (S (String.length (String c r)) ≤ k - 1)%nat).
      + by rewrite padStart0_succ in E.
      + by rewrite padStart0_long in E by lia. }
  induction n as [|n IH]; intros m a b Ha Hb E.
  - rewrite (padStart0_long 0 a) in E by lia.
    destruct (decide (S (String.length b) ≤ m)%nat).
    + by destruct (Hclash m a b).
    + by rewrite padStart0_long in E by lia.
  - destruct (decide (S (String.length a) ≤ S n)%nat) as [Hn|Hn].
    + destruct (decide (S (String.length b) ≤ m)%nat) as [Hm|Hm].
      * rewrite padStart0_succ, (padStart0_succ m) in E by done.
        injection E as E. simpl in E. rewrite Nat.sub_0_r in E.
        by apply (IH (m - 1)%nat).
      * rewrite (padStart0_long m b) in E by lia.
        symmetry in E. by destruct (Hclash (S n) b a).
    + rewrite (padStart0_long (S n) a) in E by lia.
      destruct (decide (S (String.length b) ≤ m)%nat).
      * by destruct (Hclash m a b).
      * by rewrite padStart0_long in E by lia.
Qed.

Lemma encounterId_of_inj (rid : string) (i j : Z) :
  (0 ≤ i)%Z → (0 ≤ j)%Z →
  encounterId_of rid i = encounterId_of rid j → i = j.
Proof.
  intros Hi Hj E. unfold encounterId_of in E.
  apply (inj (String.app _)) in E. apply (inj (String.app _)) in E.
  apply padStart0_inj_numeral in E; [|by apply pretty_no_leading_zero..].
  by apply (inj pretty).
Qed.

(** X8. Within a run, encounter ids are the run id, an underscore and
    the battle index in decimal, zero-padded to three digits (longer when
    the index needs it), and no two encounters of the run share an id:
    after [startRun] and any snapshots, accepted, dropped or throwing. *)
Theorem encounter_ids_are_unique_in_a_run now (snapshots : list Val) st :
  let st' := (perform_all (CallStart now :: (CallLog <$> snapshots)) st).1 in
  Forall (λ enc,
            encounter_id enc =
              "run_" +:+ now +:+ "_" +:+
              padStart0 3 (pretty (battle_index enc)))
         (encounterBuffer st') ∧
  NoDup (encounter_id <$> encounterBuffer st').
Proof.
  cbn zeta. simpl.
  change (list_fmap Val Call CallLog snapshots) with (CallLog <$> snapshots).
  change (final (startRun now st)) with (started now).
  assert (∀ st0,
            currentRun st0 = Some (new_run now) →
            consistent st0 →
            Forall (λ enc, encounter_id enc
                             = encounterId_of ("run_" +:+ now)
                                 (battle_index enc))
                   (encounterBuffer st0) →
            let st1 := (perform_all (CallLog <$> snapshots) st0).1 in
            consistent st1 ∧
            Forall (λ enc, encounter_id enc
                             = encounterId_of ("run_" +:+ now)
                                 (battle_index enc))
                   (encounterBuffer st1)) as Hinv.
  { induction snapshots as [|s rest IH]; intros st0 Hrun Hst0 Hids;
      [done|].
    rewrite fmap_cons. simpl.
    change (list_fmap Val Call CallLog rest) with (CallLog <$> rest).
    pose proof (perform_consistent (CallLog s) st0 Hst0) as Hst1.
    simpl in Hst1.
    destruct (log_cases s st0)
      as [E|[E|(r & e & enc & out & Hrun' & _ & _ & E & Hidx
                  & (rid & Hrid & Hid) & _)]];
      rewrite E in Hst1 |- *; unfold final in Hst1 |- *;
      simpl in Hst1 |- *.
    - by apply IH.
    - by apply IH.
    - assert (r = new_run now) as -> by congruence.
      injection Hrid as <-.
      apply IH; [done | done |].
      apply Forall_app. split; [done|]. apply Forall_singleton.
      by rewrite Hid, Hidx. }

  destruct (Hinv (started now) eq_refl) as [Hcons Hids].
  { repeat split. }
  { apply Forall_nil_2. }
  split; [exact Hids|].
  destruct Hcons as (_ & Hseq & _).
  rewrite (list_fmap_ext encounter_id
             (encounterId_of ("run_" +:+ now) ∘ battle_index) _).
  2: { intros i enc Henc. simpl.
       by apply (Forall_lookup_1 _ _ _ _ Hids Henc). }
  rewrite list_fmap_compose, Hseq.
  apply NoDup_fmap_2_strong; [|apply NoDup_seqZ].
  intros i j [Hi _]%elem_of_seqZ [Hj _]%elem_of_seqZ.
  by apply encounterId_of_inj.
Qed.

(** ** Finalization that fails, and the identity of a run *)

Lemma keeps_run_id_false m :
  keeps_run_id m = false ↔
  ∃ v, own_enumerable m !! "run_id" = Some v ∧ ∀ rid, v ≠ JStr rid.
Proof.
  unfold keeps_run_id. split.
  - destruct (own_enumerable m !! "run_id") as [v|]; [|done].
    intros Hv. exists v. split; [done|]. intros rid ->. done.
  - intros (v & -> & Hv). destruct v; try done. by destruct (Hv s).
Qed.

(** X9. With a run active whose [run_id] is a string, [endRun] fails
    exactly when the metadata gives [run_id] a value that is not a string.
    It then throws a [TypeError] before any download: the run stays active,
    stamped and merged, with its buffer, battle index and wave cursor
    untouched.  From there an [endRun] whose metadata sets [run_id] to a
    string emits the document with all the buffered encounters, and one
    whose metadata has no [run_id] throws again. *)
Theorem finalize_fails_on_non_string_run_id now m st r rid0 :
  currentRun st = Some r →
  field r "run_id" = JStr rid0 →
  ((∃ error, completion (endRun now m st) = Thrown error)
     ↔ keeps_run_id m = false) ∧
  (keeps_run_id m = false →
   let st1 := final (endRun now m st) in
   completion (endRun now m st) = Thrown "TypeError" ∧
   effects (endRun now m st) = [] ∧
   currentRun st1 = Some (stamp_and_merge now m (encounterBuffer st) r) ∧
   encounterBuffer st1 = encounterBuffer st ∧
   battleIndex st1 = battleIndex st ∧
   lastLoggedWaveIndex st1 = lastLoggedWaveIndex st ∧
   (∀ now2 m2 rid,
      own_enumerable m2 !! "run_id" = Some (JStr rid) →
      ∃ doc log,
        endRun now2 m2 st1 =
          (Returned tt, idle,
           [Download
              {| url := dataUrl doc;
                 filename :=
                   "pokerogue_runs/" +:+ replace_colons rid +:+ ".json";
                 saveAs := false |};
            ConsoleLog log]) ∧
        encounters doc = encounterBuffer st ∧
        run doc !! "total_battles"
          = Some (JNum (Z.of_nat (length (encounterBuffer st))))) ∧
   (∀ now2 m2,
      own_enumerable m2 !! "run_id" = None →
      completion (endRun now2 m2 st1) = Thrown "TypeError")).
Proof.
  intros Hrun Hrid0.
  assert (keeps_run_id m = false →
          ∀ rid, field (stamp_and_merge now m (encounterBuffer st) r) "run_id"
                   ≠ JStr rid) as Hbad.
  { intros (v & Hv & Hne)%keeps_run_id_false rid.
    rewrite merged_run_id, Hv. apply Hne. }
  split.
  - split.
    + intros [error Hthrown].
      destruct (keeps_run_id m) eqn:Hm; [|done].
      destruct (keeps_run_id_string now m (encounterBuffer st) r rid0 Hm Hrid0)
        as [rid Hrid].
      by rewrite (endRun_emits now m st r rid Hrun Hrid) in Hthrown.
    + intros Hm. exists "TypeError".
      by rewrite (endRun_throws now m st r Hrun (Hbad Hm)).
  - intros Hm. cbn zeta.
    rewrite (endRun_throws now m st r Hrun (Hbad Hm)).
    unfold completion, final, effects; simpl.
    set (r1 := stamp_and_merge now m (encounterBuffer st) r).
    set (st1 := {| currentRun := Some r1;
                   encounterBuffer := encounterBuffer st;
                   battleIndex := battleIndex st;
                   lastLoggedWaveIndex := lastLoggedWaveIndex st |}).
    repeat split.
    + intros now2 m2 rid Hm2.
      eexists _, _. split; [|split].
      * apply (endRun_emits now2 m2 st1 r1 rid eq_refl).
        simpl. by rewrite merged_run_id, Hm2.
      * reflexivity.
      * simpl. apply merged_total_battles.
    + intros now2 m2 Hm2.
      rewrite (endRun_throws now2 m2 st1 r1 eq_refl); [done|].
      simpl. intros rid. rewrite merged_run_id, Hm2.
      apply (Hbad Hm).
Qed.

Lemma perform_all_app calls1 calls2 st :
  perform_all (calls1 ++ calls2) st =
    ((perform_all calls2 (perform_all calls1 st).1).1,
     (perform_all calls1 st).2 ++ (perform_all calls2 (perform_all calls1 st).1).2).
Proof.
  revert st. induction calls1 as [|c rest IH]; intros st; simpl.
  - by destruct (perform_all calls2 st).
  - rewrite IH. simpl. by rewrite app_assoc.
Qed.

(** X10. A run keeps its identity from start to file.  After [startRun]
    at [now0], any snapshots and an [endRun] at [now1] whose metadata
    names neither [run_id] nor the two timestamps, exactly one document is
    downloaded; its [run_id] is ["run_" + now0], the id the [START_RUN]
    request answered with, its [start_timestamp] is [now0] and its
    [end_timestamp] is [now1]; it is written to
    [pokerogue_runs/run_<now0 with hyphens for colons>.json]; and the
    recorder is idle again. *)
Theorem run_identity_from_start_to_file
    now0 (snapshots : list Val) now1 m st :
  own_enumerable m !! "run_id" = None →
  own_enumerable m !! "start_timestamp" = None →
  own_enumerable m !! "end_timestamp" = None →
  let res := perform_all
               (CallStart now0 :: (CallLog <$> snapshots) ++ [CallEnd now1 m])
               st in
  ∃ doc,
    downloads res.2 =
      [{| url := dataUrl doc;
          filename :=
            "pokerogue_runs/run_" +:+ replace_colons now0 +:+ ".json";
          saveAs := false |}] ∧
    run doc !! "run_id" = Some (JStr ("run_" +:+ now0)) ∧
    run doc !! "start_timestamp" = Some (JStr now0) ∧
    run doc !! "end_timestamp" = Some (JStr now1) ∧
    well_counted doc ∧
    res.1 = idle ∧
    completion (onMessage now0 START_RUN st) =
      Returned (JObj (<["success" := JBool true]>
                     (<["run_id" := JStr ("run_" +:+ now0)]> ∅))).
Proof.
  intros Hid Hstart Hend. cbn zeta. simpl.
  change (final (startRun now0 st)) with (started now0).
  change (effects (startRun now0 st))
    with [ConsoleLog [JStr "Pokerogue tracker: started run";
                      JStr ("run_" +:+ now0)]].
  rewrite perform_all_app. simpl.
  destruct (perform_logs_frame snapshots (started now0))
    as (Hrun & _ & _ & _ & Hdl & _).
  cbn zeta in Hrun, Hdl.
  pose proof (perform_all_consistent (CallLog <$> snapshots) (started now0))
    as (_ & Hseq & _).
  { repeat split. }
  set (st1 := (perform_all (CallLog <$> snapshots) (started now0)).1) in *.
  simpl in Hrun.
  assert (field (stamp_and_merge now1 m (encounterBuffer st1) (new_run now0))
            "run_id" = JStr ("run_" +:+ now0)) as Hrid.
  { by rewrite merged_run_id, Hid. }
  rewrite (endRun_emits now1 m st1 (new_run now0) _ Hrun Hrid).
  unfold final, effects; simpl.
  rewrite downloads_app, Hdl. simpl.
  eexists. split; [reflexivity|]. simpl.
  rewrite !merged_lookup by done. rewrite Hid, Hstart, Hend.
  repeat split; try done.
  apply merged_total_battles.
Qed.

(** ** The popup *)

#[local] Abbreviation click_startRun :=
  (click_startRun JSON_stringify encodeURIComponent).
#[local] Abbreviation click_endRun :=
  (click_endRun JSON_stringify encodeURIComponent).

Lemma click_endRun_run now st :
  click_endRun now st =
    (let r := onMessage now (END_RUN popup_runMeta) st in
     (final r, effects r,
      match completion r with
      | Returned response => endRun_callback false response
      | Thrown _ => endRun_callback true JUndefined
      end)).
Proof. reflexivity. Qed.

(** X11. What the popup shows.  A click on Start always starts a run
    and shows ["Run started: run_<now>"].  A click on End shows
    ["Run ended and saved as JSON."] whenever the listener answers: with
    no run active, although nothing is downloaded and the recorder is left
    as it was; and with a run active (its [run_id] a string), where one
    document is downloaded whose [result] is ["Unknown"] and whose other
    metadata fields are [null]. *)
Theorem popup_reports_saved_even_without_run now st :
  click_startRun now st =
    (started now,
     [ConsoleLog [JStr "Pokerogue tracker: started run";
                  JStr ("run_" +:+ now)]],
     Returned ("Run started: run_" +:+ now)) ∧
  (currentRun st = None →
   (click_endRun now st).2 = Returned "Run ended and saved as JSON." ∧
   (click_endRun now st).1.1 = st ∧
   downloads (click_endRun now st).1.2 = []) ∧
  (∀ r rid,
     currentRun st = Some r → field r "run_id" = JStr rid →
     (click_endRun now st).2 = Returned "Run ended and saved as JSON." ∧
     (click_endRun now st).1.1 = idle ∧
     ∃ doc name,
       downloads (click_endRun now st).1.2 =
         [{| url := dataUrl doc; filename := name; saveAs := false |}] ∧
       encounters doc = encounterBuffer st ∧
       run doc !! "result" = Some (JStr "Unknown") ∧
       run doc !! "final_stage" = Some JNull ∧
       run doc !! "final_boss" = Some JNull ∧
       run doc !! "starter_species" = Some JNull ∧
       run doc !! "run_tag" = Some JNull).
Proof.
  split; [reflexivity|]. split.
  - intros Hrun. rewrite click_endRun_run. cbn zeta. unfold onMessage.
    rewrite (bind_returned _ _ _ _ _ _
               (endRun_inactive now (or_else popup_runMeta (JObj ∅)) st Hrun)).
    done.
  - intros r rid Hrun Hrid. rewrite click_endRun_run. cbn zeta.
    unfold onMessage.
    assert (field (stamp_and_merge now popup_runMeta (encounterBuffer st) r)
              "run_id" = JStr rid) as Hrid'.
    { by rewrite merged_run_id. }
    change (or_else popup_runMeta (JObj ∅)) with popup_runMeta.
    rewrite (bind_returned _ _ _ _ _ _
               (endRun_emits now popup_runMeta st r rid Hrun Hrid')).
    split; [done|]. split; [done|].
    eexists _, _. split; [reflexivity|]. simpl.
    rewrite !merged_lookup by done. repeat split.
Qed.

(** ** Reserved fields, and metadata that is not an object *)

Lemma log_keeps_reserved s st :
  Forall reserved_at_defaults (encounterBuffer st) →
  Forall reserved_at_defaults
    (encounterBuffer (final (logEncounterFromSession s st))).
Proof.
  intros Hst.
  destruct (currentRun st) as [r|] eqn:Hrun;
    [|by rewrite log_inactive].
  destruct (truthy s) eqn:Hs; [|by rewrite log_absent].
  destruct (firstEnemy_of s) as [e|] eqn:He; [|by rewrite log_no_enemy].
  destruct (same_wave (waveIndex_of s) (lastLoggedWaveIndex st)) eqn:Hw;
    [by rewrite log_same_wave|].
  destruct (nullish e) eqn:Hne; [by rewrite (log_throws s st r e)|].
  destruct (to_string (field r "run_id")) as [rid|] eqn:Hid;
    [|by rewrite (log_throws_at_run_id s st r e)].
  unfold firstEnemy_of in He.
  unfold logEncounterFromSession, mbind, Exec_bind, read.
  rewrite Hrun, Hs. simpl. rewrite He, Hw.
  unfold member, substitution. rewrite Hne. simpl. rewrite Hid. simpl.
  apply Forall_app. split; [done|]. apply Forall_singleton.
  unfold reserved_at_defaults, or_else; simpl.
  repeat split; try done.
  destruct (truthy (get e "level")) eqn:Hl; [by right | by left].
Qed.

Lemma perform_keeps_reserved c st :
  Forall reserved_at_defaults (encounterBuffer st) →
  Forall reserved_at_defaults (encounterBuffer (final (perform c st))).
Proof.
  intros Hst. destruct c as [now|now m|s]; simpl.
  - apply Forall_nil_2.
  - destruct (endRun_cases now m st)
      as [[Hrun ->]|[(r & rid & log & Hrun & _ & ->)|(r & Hrun & _ & ->)]];
      [done | apply Forall_nil_2 | done].
  - by apply log_keeps_reserved.
Qed.

(** X19. The tracker never fills the reserved fields.  Over any
    sequence of calls, every buffered encounter, and every encounter of
    every downloaded document, has [enemy_type1], [enemy_type2],
    [encounter_result] and [notes] [null], [is_boss] and
    [enemy_ended_run] [false], and an [enemy_level] that is [null] or
    truthy (never 0, never an empty string). *)
Theorem reserved_fields_stay_at_defaults calls : ∀ st,
  Forall reserved_at_defaults (encounterBuffer st) →
  Forall reserved_at_defaults (encounterBuffer (perform_all calls st).1) ∧
  ∀ d, d ∈ downloads (perform_all calls st).2 →
       ∃ doc, url d = dataUrl doc ∧
              Forall reserved_at_defaults (encounters doc).
Proof.
  induction calls as [|c rest IH]; intros st Hst; simpl.
  - split; [done|]. by intros d []%elem_of_nil.
  - destruct (IH (final (perform c st))) as [Hbuf Hdocs];
      [by apply perform_keeps_reserved|].
    split; [done|].
    intros d. rewrite downloads_app, elem_of_app. intros [Hd|Hd]; [|eauto].
    destruct c as [now|now m|s]; simpl in Hd.
    + by apply elem_of_nil in Hd.
    + destruct (endRun_cases now m st)
        as [[Hrun E]|[(r & rid & log & Hrun & _ & E)|(r & Hrun & _ & E)]];
        rewrite E in Hd; unfold effects in Hd; simpl in Hd.
      * by apply elem_of_nil in Hd.
      * apply list_elem_of_singleton in Hd as ->. by eexists.
      * by apply elem_of_nil in Hd.
    + destruct (log_cases s st)
        as [E|[E|(r & e & enc & out & _ & _ & _ & E & _ & _ & _ & _ & Hout & _)]];
        rewrite E in Hd; unfold effects in Hd; simpl in Hd;
        rewrite ?Hout in Hd; by apply elem_of_nil in Hd.
Qed.

Lemma own_enumerable_array_lookup (items : list Val) (i : nat) :
  own_enumerable (JArr items) !! pretty i = items !! i.
Proof.
  simpl.
  assert (∀ k (l : list Val) j,
            (list_to_map (imap (λ i x, (pretty (k + i)%nat, x)) l)
               : gmap string Val) !! pretty (k + j)%nat = l !! j) as Hgen.
  { intros k l. revert k. induction l as [|x l IH]; intros k j; simpl.
    - by rewrite lookup_empty.
    - destruct j as [|j]; simpl.
      + by rewrite lookup_insert_eq.
      + rewrite lookup_insert_ne.
        2: { intros Heq%(inj pretty). lia. }
        rewrite <- (IH (S k) j).
        replace (k + S j)%nat with (S k + j)%nat by lia.
        f_equal. f_equal. apply imap_ext. intros i' y _. simpl.
        do 2 f_equal. lia. }
  exact (Hgen 0%nat items i).
Qed.

(** X20. Metadata that is not an object is not merged: with [null],
    [undefined], a number, a boolean or a string as [runMeta], [endRun]
    does exactly what it does with [{}].  An array is an object to the
    guard, and is merged: its elements become fields of the run under
    their indices ["0"], ["1"], ... *)
Theorem only_objects_are_merged now m st :
  (not_an_object m = true → endRun now m st = endRun now (JObj ∅) st) ∧
  (∀ (items : list Val) (r : gmap string Val) i x,
     m = JArr items → items !! i = Some x →
     stamp_and_merge now m (encounterBuffer st) r !! pretty i = Some x).
Proof.
  split.
  - intros Hm.
    assert (∀ buffer (r : gmap string Val),
              stamp_and_merge now m buffer r
              = stamp_and_merge now (JObj ∅) buffer r) as Hsame.
    { intros buffer r. unfold stamp_and_merge, assign.
      assert (truthy m && String.eqb (typeof m) "object" = false) as ->
        by (destruct m; simpl in *; rewrite ?andb_false_r; done).
      simpl. destruct (_ !! "__proto__");
        by rewrite ?delete_empty, (left_id ∅ (∪)). }

    unfold endRun, mbind, Exec_bind, read.
    destruct (currentRun st) as [r|]; [|done].
    by rewrite Hsame.
  - intros items r i x -> Hx.
    rewrite merged_lookup.
    + by rewrite own_enumerable_array_lookup, Hx.
    + apply pretty_nat_not_t.
    + apply pretty_nat_not_underscore.
Qed.

End Properties.

(** ** The tracker at concrete sessions *)

Example to_string_of_array :
  to_string (JArr [JNum 1; JNull; JArr [JNum 2; JNum 3]; JStr "x"])
    = Some "1,,2,3,x".
Proof. reflexivity. Qed.

(** An object converts with the [toString] of [Object.prototype], unless
    a field of that name is in the way. *)
Example to_string_of_objects :
  to_string (JObj (<["toText" := JNum 5]> ∅)) = Some "[object Object]" ∧
  to_string (JObj (<["toString" := JNum 5]> ∅)) = None ∧
  to_string (JArr [JNum 1; JObj (<["toString" := JNull]> ∅)]) = None.
Proof. repeat split. Qed.

Example padStart0_of_7 : padStart0 3 (pretty 7%Z) = "007".
Proof. reflexivity. Qed.

Example padStart0_of_1234 : padStart0 3 (pretty 1234%Z) = "1234".
Proof. reflexivity. Qed.

Example one_logged_encounter :
  encounterBuffer one_logged =
    [{| encounter_id := "run_2026-01-01T10:00:00.000Z_000";
        battle_index := 0;
        enemy_species := JNum 25;
        enemy_type1 := JNull;
        enemy_type2 := JNull;
        enemy_level := JNum 12;
        is_boss := false;
        encounter_result := JNull;
        enemy_ended_run := false;
        notes := JNull |}] ∧
  battleIndex one_logged = 1%Z ∧
  lastLoggedWaveIndex one_logged = JNum 5.
Proof. repeat split. Qed.

Example download_of_one_logged :
  downloads (effects (endRun no_json no_escape noon win_meta one_logged)) =
    [{| url := "data:application/json;charset=utf-8,{}";
        filename := "pokerogue_runs/run_2026-01-01T10-00-00.000Z.json";
        saveAs := false |}].
Proof. reflexivity. Qed.

(** A first enemy that is [null] makes the property read throw; nothing
    was assigned before. *)
Example null_first_enemy_throws :
  logEncounterFromSession species_as_is
    (JObj (<["enemyParty" := JArr [JNull]]> ∅)) one_logged
    = (Thrown "TypeError", one_logged, []).
Proof. reflexivity. Qed.

(** Metadata that makes [run_id] a number makes [endRun] throw at
    [replace]: nothing is downloaded and the run stays active. *)
Example numeric_run_id_throws :
  let res := endRun no_json no_escape noon
               (JObj (<["run_id" := JNum 7]> ∅)) one_logged in
  completion res = Thrown "TypeError" ∧
  downloads (effects res) = [] ∧
  (currentRun (final res) ≫= (.!! "run_id")) = Some (JNum 7) ∧
  encounterBuffer (final res) = encounterBuffer one_logged.
Proof. repeat split. Qed.

(** The [START_RUN] request answers with the new run id. *)
Example start_request_response :
  completion (onMessage no_json no_escape ten_o_clock START_RUN idle) =
    Returned (JObj (<["success" := JBool true]>
                   (<["run_id" := JStr "run_2026-01-01T10:00:00.000Z"]> ∅))).
Proof. reflexivity. Qed.

(** ** The properties at concrete sessions *)

Lemma session_document_counts_at_5_6_5 :
  let snapshots := [wave5; wave6; wave5] in
  let res := session species_as_is no_json no_escape
               ten_o_clock snapshots noon JUndefined idle in
  forallb valid_snapshot snapshots = true ∧
  fresh_waves JNull snapshots = true ∧
  keeps_run_id JUndefined = true ∧
  ∃ doc name,
    completion res = Returned tt ∧
    downloads (effects res) =
      [{| url := dataUrl no_json no_escape doc;
          filename := name; saveAs := false |}] ∧
    run doc !! "total_battles" = Some (JNum 3) ∧
    length (encounters doc) = 3 ∧
    battle_index <$> encounters doc = [0; 1; 2]%Z.
Proof.
  split; [reflexivity|]. split; [reflexivity|]. split; [reflexivity|].
  apply (session_document_counts species_as_is no_json no_escape
           ten_o_clock [wave5; wave6; wave5] noon JUndefined idle);
    reflexivity.
Defined.

Lemma dedup_at_5_6_5 :
  let st := started ten_o_clock in
  (currentRun st = Some (new_run ten_o_clock) ∧
   to_string (field (new_run ten_o_clock) "run_id")
     = Some "run_2026-01-01T10:00:00.000Z" ∧
   valid_snapshot wave5 = true ∧ valid_snapshot wave6 = true ∧
   get wave5 "waveIndex" = JNum 5 ∧ get wave6 "waveIndex" = JNum 6) ∧
  (∃ e,
     completion (deliver species_as_is [wave5; wave5] st) = Returned tt ∧
     encounterBuffer (final (deliver species_as_is [wave5; wave5] st))
       = encounterBuffer st ++ [e] ∧
     lastLoggedWaveIndex (final (deliver species_as_is [wave5; wave5] st))
       = JNum 5) ∧
  (∃ e1 e2 e3,
     completion (deliver species_as_is [wave5; wave6; wave5] st)
       = Returned tt ∧
     encounterBuffer (final (deliver species_as_is [wave5; wave6; wave5] st))
       = encounterBuffer st ++ [e1; e2; e3]).
Proof.
  split; [repeat split|].
  destruct (dedup_against_last_wave_only species_as_is
              (started ten_o_clock) (new_run ten_o_clock)
              "run_2026-01-01T10:00:00.000Z"
              wave5 wave5 wave6 5 6
              ltac:(reflexivity) ltac:(reflexivity) ltac:(reflexivity)
              ltac:(reflexivity) ltac:(reflexivity) ltac:(reflexivity)
              ltac:(reflexivity) ltac:(reflexivity))
    as (_ & Htwice & Hrevisit).
  split.
  - apply Htwice. discriminate.
  - apply Hrevisit; [discriminate | lia].
Defined.

Lemma reject_is_noop_at_empty_party :
  let s := JObj (<["waveIndex" := JNum 5]> (<["enemyParty" := JArr []]> ∅)) in
  get s "enemyParty" = JArr [] ∧
  logEncounterFromSession species_as_is s one_logged
    = (Returned tt, one_logged, []).
Proof.
  split; [reflexivity|].
  apply (reject_is_noop species_as_is). right. right. right. reflexivity.
Defined.

Lemma falsy_level_recorded_as_null_at_level_0 :
  let st := started ten_o_clock in
  let e := JObj (<["species" := JNum 19]> (<["level" := JNum 0]> ∅)) in
  (currentRun st = Some (new_run ten_o_clock) ∧
   to_string (field (new_run ten_o_clock) "run_id")
     = Some "run_2026-01-01T10:00:00.000Z" ∧
   truthy wave6 = true ∧
   firstEnemy_of wave6 = Some e ∧
   nullish e = false ∧
   same_wave (waveIndex_of wave6) (lastLoggedWaveIndex st) = false) ∧
  ∃ enc,
    encounterBuffer (final (logEncounterFromSession species_as_is wave6 st))
      = encounterBuffer st ++ [enc] ∧
    enemy_level enc = JNull.
Proof.
  split; [repeat split|].
  destruct (falsy_level_recorded_as_null species_as_is wave6
              (started ten_o_clock) (new_run ten_o_clock)
              "run_2026-01-01T10:00:00.000Z"
              (JObj (<["species" := JNum 19]> (<["level" := JNum 0]> ∅)))
              ltac:(reflexivity) ltac:(reflexivity) ltac:(reflexivity)
              ltac:(reflexivity) ltac:(reflexivity) ltac:(reflexivity))
    as (enc & Hbuf & _ & Hzero & _).
  exists enc. split; [exact Hbuf|]. apply Hzero. reflexivity.
Defined.

Lemma finalize_emits_once_and_clears_at_one_logged :
  let res := endRun no_json no_escape noon win_meta one_logged in
  (is_Some (currentRun one_logged) ∧ completion res = Returned tt) ∧
  length (downloads (effects res)) = 1 ∧
  final res = idle.
Proof.
  split; [split; [by eexists | reflexivity]|].
  destruct (finalize_emits_once_and_clears no_json no_escape noon win_meta
              one_logged (new_run ten_o_clock) ltac:(reflexivity) ltac:(reflexivity))
    as (Hone & _).
  split; [exact Hone | reflexivity].
Defined.

Lemma emission_path_at_one_logged :
  let res := endRun no_json no_escape noon win_meta one_logged in
  completion res = Returned tt ∧
  ∃ doc rid safe,
    downloads (effects res) =
      [{| url := dataUrl no_json no_escape doc;
          filename := "pokerogue_runs/" +:+ safe +:+ ".json";
          saveAs := false |}] ∧
    run doc !! "run_id" = Some (JStr rid) ∧
    list_ascii_of_string safe =
      (λ c, if Ascii.eqb c ":" then "-"%char else c) <$>
        list_ascii_of_string rid ∧
    ":"%char ∉ list_ascii_of_string ("pokerogue_runs/" +:+ safe +:+ ".json").
Proof.
  split; [reflexivity|].
  apply (emission_path_keyed_by_run_id no_json no_escape noon win_meta
           one_logged (new_run ten_o_clock)); reflexivity.
Defined.

Lemma finalize_merges_metadata_at_win :
  let res := endRun no_json no_escape noon win_meta one_logged in
  completion res = Returned tt ∧
  ∃ doc name,
    downloads (effects res) =
      [{| url := dataUrl no_json no_escape doc;
          filename := name; saveAs := false |}] ∧
    run doc !! "result" = Some (JStr "WIN") ∧
    run doc !! "final_stage" = Some JNull ∧
    run doc !! "start_timestamp" = Some (JStr ten_o_clock).
Proof.
  split; [reflexivity|].
  destruct (finalize_merges_metadata no_json no_escape noon
              (<["result" := JStr "WIN"]> ∅) one_logged (new_run ten_o_clock)
              ltac:(reflexivity) ltac:(reflexivity))
    as (_ & (doc & name & Hd & Hset & Hkept) & _).
  exists doc, name. split; [exact Hd|]. split; [|split].
  - apply Hset; [reflexivity | discriminate | discriminate].
  - rewrite Hkept; [reflexivity | reflexivity | discriminate | discriminate].
  - rewrite Hkept; [reflexivity | reflexivity | discriminate | discriminate].
Defined.

Lemma finalize_merge_is_unfiltered_at_run_id :
  let meta := JObj (<["run_id" := JStr "mine"]>
                   (<["end_timestamp" := JNull]>
                   (<["total_battles" := JNum 99]>
                   (<["mood" := JStr "tilted"]> ∅)))) in
  let res := endRun no_json no_escape noon meta one_logged in
  is_Some (currentRun one_logged) ∧
  ∃ r' : gmap string Val,
    downloads (effects res) =
      [{| url := dataUrl no_json no_escape
                   {| run := r'; encounters := encounterBuffer one_logged |};
          filename := "pokerogue_runs/mine.json"; saveAs := false |}] ∧
    r' !! "run_id" = Some (JStr "mine") ∧
    r' !! "end_timestamp" = Some JNull ∧
    r' !! "mood" = Some (JStr "tilted") ∧
    r' !! "total_battles" = Some (JNum 1).
Proof.
  split; [by eexists|].
  destruct (finalize_merge_is_unfiltered no_json no_escape noon
              (JObj (<["run_id" := JStr "mine"]>
                    (<["end_timestamp" := JNull]>
                    (<["total_battles" := JNum 99]>
                    (<["mood" := JStr "tilted"]> ∅)))))
              one_logged (new_run ten_o_clock) ltac:(reflexivity))
    as (r' & [(_ & name & Hd) | (Hthrown & _)] & Hset & _ & Htotal).
  - exists r'. split; [|repeat split].
    + rewrite Hd. vm_compute in Hd. congruence.
    + apply Hset; [reflexivity | discriminate | discriminate].
    + apply Hset; [reflexivity | discriminate | discriminate].
    + apply Hset; [reflexivity | discriminate | discriminate].
    + exact Htotal.
  - discriminate Hthrown.
Defined.

Lemma finalize_without_run_warns_only_at_idle :
  currentRun idle = None ∧
  endRun no_json no_escape noon win_meta idle =
    (Returned tt, idle,
     [ConsoleWarn
        [JStr "Pokerogue tracker: endRun called but no active run"]]) ∧
  completion (onMessage no_json no_escape noon (END_RUN win_meta) idle)
    = Returned success_response.
Proof.
  split; [reflexivity|].
  destruct (finalize_without_run_warns_only no_json no_escape noon win_meta
              idle ltac:(reflexivity)) as (Hend & _ & Hresponse & _).
  split; [exact Hend | exact Hresponse].
Defined.

(** ** Where the stated claims fail *)

(** C3 as stated fails: with no active run, [endRun] returns normally and
    the popup receives the acknowledgement [{ success: true }], the very
    response it receives when a run was active and a document emitted. *)
Lemma finalize_without_run_is_acknowledged :
  currentRun idle = None ∧
  completion (endRun no_json no_escape noon JUndefined idle) = Returned tt ∧
  completion (onMessage no_json no_escape noon (END_RUN JUndefined) idle)
    = Returned success_response ∧
  completion (onMessage no_json no_escape noon (END_RUN JUndefined) idle)
    = completion (onMessage no_json no_escape noon (END_RUN JUndefined)
                    one_logged) ∧
  length (downloads (effects
    (onMessage no_json no_escape noon (END_RUN JUndefined) one_logged))) = 1.
Proof. repeat split. Qed.

(** C4 as stated fails: [start()] on an active run with one encounter
    logged neither fails nor leaves the state alone; the run is replaced,
    its encounter is dropped, and no warning is output. *)
Lemma start_over_active_run_discards_it :
  let res := startRun noon one_logged in
  is_Some (currentRun one_logged) ∧
  length (encounterBuffer one_logged) = 1 ∧
  completion res = Returned tt ∧
  final res ≠ one_logged ∧
  encounterBuffer (final res) = [] ∧
  (currentRun (final res) ≫= (.!! "run_id"))
    ≠ (currentRun one_logged ≫= (.!! "run_id")) ∧
  warnings (effects res) = [].
Proof.
  repeat split.
  - by eexists.
  - intros H. apply (f_equal encounterBuffer) in H. discriminate H.
  - discriminate.
Qed.

(** C5 as stated fails at a field named [__proto__].  After [start()]
    at ten, [finalize({ "__proto__": 5, result: "WIN" })] emits a run
    whose [result] is ["WIN"] and which has no field [__proto__]: the
    assignment of [Object.assign] went to the accessor of
    [Object.prototype].  So it is not the case that every field of the
    metadata is in the emitted run, whatever serialises the document. *)
Lemma proto_field_of_metadata_is_not_merged :
  let res := endRun no_json no_escape noon (JObj proto_and_win)
               (started ten_o_clock) in
  let emitted :=
    stamp_and_merge noon (JObj proto_and_win) [] (new_run ten_o_clock) in
  proto_and_win !! "__proto__" = Some (JNum 5) ∧
  completion res = Returned tt ∧
  downloads (effects res) =
    [{| url := dataUrl no_json no_escape
                 {| run := emitted; encounters := [] |};
        filename := "pokerogue_runs/run_2026-01-01T10-00-00.000Z.json";
        saveAs := false |}] ∧
  emitted !! "result" = Some (JStr "WIN") ∧
  emitted !! "__proto__" = None ∧
  ¬ (∀ (JSON_stringify : Payload → string)
       (encodeURIComponent : string → string),
       ∃ doc name,
         downloads (effects (endRun JSON_stringify encodeURIComponent noon
                               (JObj proto_and_win) (started ten_o_clock))) =
           [{| url := dataUrl JSON_stringify encodeURIComponent doc;
               filename := name; saveAs := false |}] ∧
         ∀ k v, proto_and_win !! k = Some v → k ≠ "total_battles" →
                run doc !! k = Some v).
Proof.
  repeat split.
  intros Hall.
  destruct (Hall (λ doc, match run doc !! "__proto__" with
                         | Some _ => "with"
                         | None => "without"
                         end)
                 (λ text, text))
    as (doc & name & Hd & Hcopied).
  unfold dataUrl in Hd.
  rewrite (Hcopied "__proto__" (JNum 5) ltac:(reflexivity) ltac:(discriminate))
    in Hd.
  vm_compute in Hd. discriminate Hd.
Qed.

(** C10 as stated fails at the key [__proto__].  With wave 5 logged,
    [finalize({ "__proto__": "tilted", run_id: "mine" })] copies [run_id],
    and the document is written under it, but the run it emits has no key
    [__proto__]: not every enumerable key of the metadata is copied into
    the run. *)
Lemma merge_skips_the_proto_key :
  let res := endRun no_json no_escape noon (JObj proto_and_run_id)
               one_logged in
  let emitted :=
    stamp_and_merge noon (JObj proto_and_run_id)
      (encounterBuffer one_logged) (new_run ten_o_clock) in
  own_enumerable (JObj proto_and_run_id) !! "__proto__"
    = Some (JStr "tilted") ∧
  currentRun one_logged = Some (new_run ten_o_clock) ∧
  completion res = Returned tt ∧
  downloads (effects res) =
    [{| url := dataUrl no_json no_escape
                 {| run := emitted; encounters := encounterBuffer one_logged |};
        filename := "pokerogue_runs/mine.json";
        saveAs := false |}] ∧
  emitted !! "run_id" = Some (JStr "mine") ∧
  emitted !! "__proto__" = None ∧
  ¬ (∀ (JSON_stringify : Payload → string)
       (encodeURIComponent : string → string),
       ∃ (r' : gmap string Val) name,
         downloads (effects (endRun JSON_stringify encodeURIComponent noon
                               (JObj proto_and_run_id) one_logged)) =
           [{| url := dataUrl JSON_stringify encodeURIComponent
                        {| run := r';
                           encounters := encounterBuffer one_logged |};
               filename := name; saveAs := false |}] ∧
         ∀ k v, own_enumerable (JObj proto_and_run_id) !! k = Some v →
                k ≠ "total_battles" → r' !! k = Some v).
Proof.
  repeat split.
  intros Hall.
  destruct (Hall (λ doc, match run doc !! "__proto__" with
                         | Some _ => "with"
                         | None => "without"
                         end)
                 (λ text, text))
    as (r' & name & Hd & Hcopied).
  unfold dataUrl in Hd. simpl run in Hd.
  rewrite (Hcopied "__proto__" (JStr "tilted")
             ltac:(reflexivity) ltac:(discriminate)) in Hd.
  vm_compute in Hd. discriminate Hd.
Qed.

(** ** The further properties at concrete sessions *)

(** With a [run_id] that has no conversion to a string, a snapshot that
    would be logged throws at the template literal of the encounter id,
    and nothing is appended. *)
Example snapshot_throws_at_run_id_without_string :
  (currentRun run_id_without_string ≫= (.!! "run_id"))
    = Some (JObj (<["toString" := JNum 5]> ∅)) ∧
  encounterBuffer run_id_without_string = encounterBuffer one_logged ∧
  valid_snapshot wave6 = true ∧
  logEncounterFromSession species_as_is wave6 run_id_without_string
    = (Thrown "TypeError", run_id_without_string, []).
Proof. repeat split. Qed.

Example an_evening_downloads :
  downloads (perform_all species_as_is no_json no_escape an_evening idle).2 =
    [{| url := "data:application/json;charset=utf-8,{}";
        filename := "pokerogue_runs/mine.json";
        saveAs := false |}] ∧
  warnings (perform_all species_as_is no_json no_escape an_evening idle).2 =
    [[JStr "Pokerogue tracker: endRun called but no active run"]] ∧
  (perform_all species_as_is no_json no_escape an_evening idle).1 = idle.
Proof. repeat split. Qed.

Lemma tracking_variables_stay_consistent_at_an_evening :
  consistent idle ∧
  consistent
    (perform_all species_as_is no_json no_escape (take 6 an_evening) idle).1.
Proof.
  split; [repeat split|].
  apply (tracking_variables_stay_consistent species_as_is no_json no_escape).
  repeat split.
Defined.

Lemma every_emitted_document_is_well_counted_at_an_evening :
  let d := {| url := "data:application/json;charset=utf-8,{}";
              filename := "pokerogue_runs/mine.json";
              saveAs := false |} in
  (consistent idle ∧
   d ∈ downloads
         (perform_all species_as_is no_json no_escape an_evening idle).2) ∧
  ∃ doc, url d = dataUrl no_json no_escape doc ∧ well_counted doc.
Proof.
  assert (consistent idle) as Hidle by repeat split.
  assert ({| url := "data:application/json;charset=utf-8,{}";
             filename := "pokerogue_runs/mine.json";
             saveAs := false |}
          ∈ downloads
              (perform_all species_as_is no_json no_escape an_evening idle).2)
    as Hd by (vm_compute; apply list_elem_of_singleton; reflexivity).
  split; [by split|].
  exact (every_emitted_document_is_well_counted species_as_is no_json
           no_escape an_evening idle _ Hidle Hd).
Defined.

Lemma burst_is_logged_as_its_first_snapshot_at_wave5 :
  (valid_snapshot wave5 = true ∧
   Forall (λ x, get x "waveIndex" = JNum 5)
          [wave5; wave5; snapshot (JNum 5) JNull JNull]) ∧
  deliver species_as_is [wave5; wave5; snapshot (JNum 5) JNull JNull]
    (started ten_o_clock)
    = logEncounterFromSession species_as_is wave5 (started ten_o_clock).
Proof.
  assert (Forall (λ x, get x "waveIndex" = JNum 5)
                 [wave5; wave5; snapshot (JNum 5) JNull JNull]) as Hall
    by (repeat constructor).
  split; [by split|].
  exact (burst_is_logged_as_its_first_snapshot species_as_is wave5
           [wave5; snapshot (JNum 5) JNull JNull] 5 (started ten_o_clock)
           ltac:(reflexivity) Hall).
Defined.

Lemma snapshots_without_wave_are_all_logged_at_three :
  let snapshots := [no_wave; string_wave; no_wave] in
  (currentRun one_logged = Some (new_run ten_o_clock) ∧
   to_string (field (new_run ten_o_clock) "run_id")
     = Some "run_2026-01-01T10:00:00.000Z" ∧
   forallb valid_snapshot snapshots = true ∧
   Forall (λ s, typeof (get s "waveIndex") ≠ "number") snapshots) ∧
  ∃ encs,
    encounterBuffer (final (deliver species_as_is snapshots one_logged))
      = encounterBuffer one_logged ++ encs ∧
    length encs = 3%nat ∧
    lastLoggedWaveIndex (final (deliver species_as_is snapshots one_logged))
      = JNum 5.
Proof.
  assert (Forall (λ s, typeof (get s "waveIndex") ≠ "number")
                 [no_wave; string_wave; no_wave]) as Hnone
    by (repeat constructor; discriminate).
  split; [repeat split; exact Hnone|].
  destruct (snapshots_without_wave_are_all_logged species_as_is
              [no_wave; string_wave; no_wave] one_logged
              (new_run ten_o_clock) "run_2026-01-01T10:00:00.000Z"
              ltac:(reflexivity) ltac:(reflexivity) ltac:(reflexivity) Hnone)
    as (encs & out & Hdel & Hlen & _).
  exists encs. rewrite Hdel. repeat split. exact Hlen.
Defined.

Lemma finalize_fails_on_non_string_run_id_at_7 :
  let m := JObj (<["run_id" := JNum 7]> ∅) in
  let res := endRun no_json no_escape noon m one_logged in
  (currentRun one_logged = Some (new_run ten_o_clock) ∧
   field (new_run ten_o_clock) "run_id" = JStr ("run_" +:+ ten_o_clock) ∧
   keeps_run_id m = false) ∧
  completion res = Thrown "TypeError" ∧
  effects res = [] ∧
  encounterBuffer (final res) = encounterBuffer one_logged ∧
  completion (endRun no_json no_escape noon popup_runMeta (final res))
    = Thrown "TypeError".
Proof.
  split; [repeat split|].
  destruct (finalize_fails_on_non_string_run_id no_json no_escape noon
              (JObj (<["run_id" := JNum 7]> ∅)) one_logged
              (new_run ten_o_clock) ("run_" +:+ ten_o_clock)
              ltac:(reflexivity) ltac:(reflexivity))
    as (_ & Hfails).
  destruct (Hfails ltac:(reflexivity))
    as (Hthrown & Hout & _ & Hbuf & _ & _ & _ & Hagain).
  split; [exact Hthrown|]. split; [exact Hout|]. split; [exact Hbuf|].
  apply Hagain. reflexivity.
Defined.

Lemma run_identity_from_start_to_file_at_an_evening :
  let res := perform_all species_as_is no_json no_escape
               (CallStart ten_o_clock ::
                (CallLog <$> [wave5; wave5; wave6]) ++
                [CallEnd noon popup_runMeta])
               one_logged in
  (own_enumerable popup_runMeta !! "run_id" = None ∧
   own_enumerable popup_runMeta !! "start_timestamp" = None ∧
   own_enumerable popup_runMeta !! "end_timestamp" = None) ∧
  ∃ doc,
    downloads res.2 =
      [{| url := dataUrl no_json no_escape doc;
          filename := "pokerogue_runs/run_2026-01-01T10-00-00.000Z.json";
          saveAs := false |}] ∧
    run doc !! "run_id" = Some (JStr "run_2026-01-01T10:00:00.000Z") ∧
    run doc !! "end_timestamp" = Some (JStr noon) ∧
    res.1 = idle.
Proof.
  split; [repeat split|].
  destruct (run_identity_from_start_to_file species_as_is no_json no_escape
              ten_o_clock [wave5; wave5; wave6] noon popup_runMeta one_logged
              ltac:(reflexivity) ltac:(reflexivity) ltac:(reflexivity))
    as (doc & Hd & Hid & _ & Hend & _ & Hidle & _).
  exists doc. split; [exact Hd|]. split; [exact Hid|].
  split; [exact Hend | exact Hidle].
Defined.

Lemma popup_reports_saved_even_without_run_at_idle :
  currentRun idle = None ∧
  (click_endRun no_json no_escape noon idle).2
    = Returned "Run ended and saved as JSON." ∧
  downloads (click_endRun no_json no_escape noon idle).1.2 = [] ∧
  (click_startRun no_json no_escape ten_o_clock idle).2
    = Returned "Run started: run_2026-01-01T10:00:00.000Z".
Proof.
  split; [reflexivity|].
  destruct (popup_reports_saved_even_without_run no_json no_escape noon idle)
    as (_ & Hidle & _).
  destruct (Hidle ltac:(reflexivity)) as (Hstatus & _ & Hdl).
  split; [exact Hstatus|]. split; [exact Hdl|]. reflexivity.
Defined.

(** ** The overlay *)

Section OverlayProperties.

Context (convertPokemonId WeatherType Nature getNatureDescription : Val → Val).
Context (Array_sort : (Val → Val → Z) → list Val → list Val).

#[local] Abbreviation weather_of := (weather_of WeatherType).
#[local] Abbreviation issue := (issue convertPokemonId WeatherType).
#[local] Abbreviation appendPokemonArrayToDiv :=
  (appendPokemonArrayToDiv convertPokemonId WeatherType).
#[local] Abbreviation frontend_entry :=
  (frontend_entry Nature getNatureDescription).
#[local] Abbreviation entries_of := (entries_of Nature getNatureDescription).
#[local] Abbreviation resolved :=
  (resolved Nature getNatureDescription Array_sort).
#[local] Abbreviation gather := (gather Nature getNatureDescription Array_sort).

Lemma sortById_numeric a b x y :
  get a "id" = JNum x → get b "id" = JNum y →
  sortById a b = (if (y <? x)%Z then 1 else if (x <? y)%Z then -1 else 0)%Z.
Proof. intros Ha Hb. unfold sortById, greater_than. by rewrite Ha, Hb. Qed.

Lemma sortById_sign a b x y :
  get a "id" = JNum x → get b "id" = JNum y →
  sortById a b = Z.sgn (x - y).
Proof.
  intros Ha Hb. rewrite (sortById_numeric a b x y Ha Hb).
  destruct (Z.ltb_spec y x), (Z.ltb_spec x y); lia.
Qed.

Lemma sortById_consistent (l : list Val) :
  Forall has_numeric_id l → consistent_comparator sortById l.
Proof.
  rewrite Forall_forall. intros Hl a b c [x Ha]%Hl [y Hb]%Hl [z Hc]%Hl.
  rewrite (sortById_sign a a x x), (sortById_sign a b x y),
    (sortById_sign b a y x), (sortById_sign b c y z),
    (sortById_sign a c x z) by done.
  repeat split; lia.
Qed.

(** X12. On entries whose ids are numbers, [sortById] is the comparator
    of the ascending order of ids: its result is the sign of the
    difference of the ids, and it is a consistent comparator, as
    [Array.prototype.sort] requires.  An id that is [NaN] compares equal
    to every other, which breaks that: with the ids 2, NaN, 1 the
    comparator is not consistent. *)
Theorem sortById_orders_numeric_ids (l : list Val) :
  Forall has_numeric_id l →
  (∀ a b x y, get a "id" = JNum x → get b "id" = JNum y →
     sortById a b = Z.sgn (x - y)) ∧
  consistent_comparator sortById l ∧
  ¬ consistent_comparator sortById
      [JObj (<["id" := JNum 2]> ∅); JObj (<["id" := JNaN]> ∅);
       JObj (<["id" := JNum 1]> ∅)].
Proof.
  intros Hl. split; [apply sortById_sign|]. split.
  - by apply sortById_consistent.
  - intros Hcons.
    destruct (Hcons (JObj (<["id" := JNum 2]> ∅)) (JObj (<["id" := JNaN]> ∅))
                (JObj (<["id" := JNum 1]> ∅))) as (_ & _ & Htrans).
    + apply list_elem_of_here.
    + apply list_elem_of_further, list_elem_of_here.
    + do 2 apply list_elem_of_further. apply list_elem_of_here.
    + by specialize (Htrans ltac:(done) ltac:(done)).
Qed.











Lemma weather_of_absent arena :
  nullish arena = true → weather_of arena = Thrown "TypeError".
Proof. intros Ha. unfold weather_of. by rewrite Ha. Qed.




#[local] Instance id_le_trans : Transitive id_le.
Proof.
  intros a b c (x & y & Ha & Hb & Hxy) (y' & z & Hb' & Hc & Hyz).
  exists x, z. repeat split; try done.
  rewrite Hb in Hb'. injection Hb' as <-. lia.
Qed.






End OverlayProperties.

(** ** The overlay at a party of three *)





Example overlay_of_three :
  updates (gather no_table no_table insertion_sort 3 "UPDATE_ENEMIES_DIV"
             resolved_in_order gathering_start).2
  = updates (gather no_table no_table insertion_sort 3 "UPDATE_ENEMIES_DIV"
               (reverse resolved_in_order) gathering_start).2 ∧
  (λ u : list Val * Val * string, (λ a, get a "id") <$> u.1.1) <$>
    updates (gather no_table no_table insertion_sort 3 "UPDATE_ENEMIES_DIV"
               (reverse resolved_in_order) gathering_start).2
  = [[JNum 4; JNum 7; JNum 25]].

Proof. split; reflexivity. Qed.

Lemma sortById_orders_numeric_ids_at_three :
  let l := entries_of no_table no_table resolved_in_order in
  Forall has_numeric_id l ∧ consistent_comparator sortById l.
Proof.
  assert (Forall has_numeric_id
            (entries_of no_table no_table resolved_in_order)) as Hl
    by (repeat constructor; eexists; reflexivity).
  split; [exact Hl|].
  exact (proj1 (proj2 (sortById_orders_numeric_ids _ Hl))).
Defined.



(** ** The listeners *)

Section ListenerProperties.

Context (convertPokemonId WeatherType mapPartyToPokemonArray : Val → Val).

#[local] Abbreviation logEncounterFromSession :=
  (logEncounterFromSession convertPokemonId).
#[local] Abbreviation appendPokemonArrayToDiv :=
  (appendPokemonArrayToDiv convertPokemonId WeatherType).
#[local] Abbreviation show_and_log :=
  (show_and_log convertPokemonId WeatherType mapPartyToPokemonArray).
#[local] Abbreviation overlay_returns :=
  (overlay_returns convertPokemonId WeatherType mapPartyToPokemonArray).
#[local] Abbreviation onBeforeRequest :=
  (onBeforeRequest convertPokemonId WeatherType mapPartyToPokemonArray).
#[local] Abbreviation onSaveData :=
  (onSaveData convertPokemonId WeatherType mapPartyToPokemonArray).

Lemma show_and_log_cases s st :
  (overlay_returns s ∧
   (show_and_log s st).1 = logEncounterFromSession s st) ∨
  (¬ overlay_returns s ∧
   ∃ e pending, show_and_log s st = (Thrown e, st, [], pending)).
Proof.
  unfold show_and_log, overlay_returns.
  destruct (nullish s) eqn:Hs.
  { right. split; [by intros [? _]|eauto]. }
  destruct (appendPokemonArrayToDiv _ _).2 as [[]|e] eqn:He; simpl.
  - destruct (appendPokemonArrayToDiv
                (mapPartyToPokemonArray (get s "party")) _).2
      as [[]|e] eqn:Ha; simpl.
    + left. split; [done|].
      by destruct (logEncounterFromSession s st) as [[c st'] out].
    + right. split; [|by eauto]. intros (_ & _ & Hallies). congruence.
  - right. split; [|by eauto]. intros (_ & Henemies & _). congruence.
Qed.

Lemma log_frame s st :
  currentRun (final (logEncounterFromSession s st)) = currentRun st ∧
  encounterBuffer st
    `prefix_of` encounterBuffer (final (logEncounterFromSession s st)) ∧
  downloads (effects (logEncounterFromSession s st)) = [] ∧
  (completion (logEncounterFromSession s st) ≠ Returned tt →
   logEncounterFromSession s st = (Thrown "TypeError", st, [])).
Proof.
  destruct (log_cases convertPokemonId s st)
    as [E|[E|(r & e & enc & out & Hrun & _ & _ & E & _ & _ & _ & _ & Hout & _)]];
    rewrite E; unfold final, effects, completion; simpl.
  - by repeat split.
  - by repeat split.
  - repeat split; try done. by apply prefix_app_r.
Qed.

Lemma show_and_log_frame s st :
  currentRun (show_and_log s st).1.1.2 = currentRun st ∧
  encounterBuffer st `prefix_of` encounterBuffer (show_and_log s st).1.1.2 ∧
  downloads (show_and_log s st).1.2 = [] ∧
  ((show_and_log s st).1.1.1 ≠ Returned tt →
   (show_and_log s st).1.1.2 = st).
Proof.
  destruct (show_and_log_cases s st) as [[_ E]|[_ (e & pending & E)]].
  - destruct (log_frame s st) as (Hrun & Hpre & Hdl & Hthrow).
    rewrite E. split; [done|]. split; [done|]. split; [done|].
    intros Hc. by rewrite (Hthrow Hc).
  - rewrite E. simpl. by repeat split.
Qed.

(** X16. The network listener never lets an exception escape and
    touches the tracker only through [logEncounterFromSession].  A request
    that is not a POST does nothing at all.  Otherwise the active run
    stays the same object, the buffer is only extended, nothing is
    downloaded, and whenever an exception is caught the tracking variables
    are what they were.  When the two overlay calls return, the tracker is
    left exactly as [logEncounterFromSession] leaves it on the snapshot:
    the parsed body, or its [session] when the URL contains
    ["updateall"]. *)
Theorem network_listener_is_exception_safe method url body st :
  let h := onBeforeRequest method url body st in
  (method ≠ "POST" →
   h = {| after := st; output := []; issued := []; caught := None;
          escaped := None; response := None |}) ∧
  escaped h = None ∧
  response h = None ∧
  currentRun (after h) = currentRun st ∧
  encounterBuffer st `prefix_of` encounterBuffer (after h) ∧
  downloads (output h) = [] ∧
  (is_Some (caught h) → after h = st) ∧
  (∀ parsed,
     method = "POST" → body = Returned parsed →
     let s := if includes "updateall" url then get parsed "session"
              else parsed in
     overlay_returns s →
     after h = final (logEncounterFromSession s st) ∧
     output h = ConsoleLog [JStr "POST Session data:"; parsed]
                :: effects (logEncounterFromSession s st) ∧
     (caught h = None ↔
      completion (logEncounterFromSession s st) = Returned tt)).
Proof.
  cbn zeta. unfold onBeforeRequest.
  destruct (String.eqb_spec method "POST") as [->|Hmethod]; simpl.
  2: { do 7 (split; [done|]). by intros. }
  split; [done|].
  destruct body as [parsed|e]; simpl.
  2: { do 6 (split; [done|]). by intros. }
  destruct (includes "updateall" url && nullish parsed) eqn:Hnull; simpl.
  { do 6 (split; [done|]).
    intros parsed' _ [= <-] [Hs _]. exfalso.
    apply andb_prop in Hnull as [Hurl Hp]. rewrite Hurl in Hs.
    by destruct parsed. }
  set (s := if includes "updateall" url then get parsed "session"
            else parsed).
  destruct (show_and_log_frame s st) as (Hrun & Hpre & Hdl & Hthrow).
  do 5 (split; [done|]). split.
  - intros [e He]. apply Hthrow.
    by destruct (show_and_log s st).1.1.1.
  - intros parsed' _ [= <-] Hret. fold s in Hret |- *.
    destruct (show_and_log_cases s st) as [[_ E]|[Hno _]]; [|done].
    rewrite E. unfold completion. split; [done|]. split; [done|].
    by destruct (logEncounterFromSession s st).1.1 as [[]|].
Qed.

Lemma show_and_log_without_arena s st e es :
  nullish s = false →
  mapPartyToPokemonArray (get s "enemyParty") = JArr (e :: es) →
  nullish (get s "arena") = true →
  show_and_log s st = (Thrown "TypeError", st, [], []).
Proof.
  intros Hs Hparty Harena. unfold show_and_log.
  rewrite Hs, Hparty. simpl.
  destruct (nullish e); [done|].
  by rewrite (weather_of_absent WeatherType _ Harena).
Qed.

(** X17. Encounters the listeners lose.  A snapshot whose mapped enemy
    party is not empty but which has no [arena] is never logged: the
    first overlay call throws a [TypeError] before
    [logEncounterFromSession] is reached, so the network listener catches
    it, the save-data branch lets it escape without a response, and the
    tracking variables stay as they were.  Likewise a POST to an
    ["updateall"] URL whose body has no [session] is dropped with a caught
    [TypeError], even if the body itself is a snapshot. *)
Theorem encounter_is_lost_without_arena url s st e es :
  nullish s = false →
  mapPartyToPokemonArray (get s "enemyParty") = JArr (e :: es) →
  nullish (get s "arena") = true →
  (includes "updateall" url = false →
   after (onBeforeRequest "POST" url (Returned s) st) = st ∧
   caught (onBeforeRequest "POST" url (Returned s) st) = Some "TypeError" ∧
   issued (onBeforeRequest "POST" url (Returned s) st) = []) ∧
  (after (onSaveData s st) = st ∧
   escaped (onSaveData s st) = Some "TypeError" ∧
   response (onSaveData s st) = None ∧
   issued (onSaveData s st) = []) ∧
  (includes "updateall" url = true →
   nullish (get s "session") = true →
   after (onBeforeRequest "POST" url (Returned s) st) = st ∧
   caught (onBeforeRequest "POST" url (Returned s) st) = Some "TypeError" ∧
   issued (onBeforeRequest "POST" url (Returned s) st) = []).
Proof.
  intros Hs Hparty Harena.
  pose proof (show_and_log_without_arena s st e es Hs Hparty Harena) as E.
  split; [|split].
  - intros Hurl. unfold onBeforeRequest. simpl. rewrite Hurl. simpl.
    by rewrite E.
  - unfold onSaveData. by rewrite E.
  - intros Hurl Hsession. unfold onBeforeRequest. simpl.
    rewrite Hurl, Hs. simpl.
    unfold show_and_log. by rewrite Hsession.
Qed.

(** X18. The save-data branch has no [catch] and answers only when
    nothing threw: it sends [{ success: true }] exactly when no exception
    escapes.  When the two overlay calls return, the tracker is left as
    [logEncounterFromSession] leaves it on the save data; when one of them
    throws, or the save data is [null] or [undefined], the exception
    escapes, no response is sent and the tracking variables are what they
    were.  It never downloads and never replaces the active run. *)
Theorem save_data_answers_only_without_exception s st :
  let h := onSaveData s st in
  caught h = None ∧
  (response h = Some success_response ↔ escaped h = None) ∧
  (response h = None ↔ is_Some (escaped h)) ∧
  currentRun (after h) = currentRun st ∧
  downloads (output h) = [] ∧
  (is_Some (escaped h) → after h = st) ∧
  (overlay_returns s →
   after h = final (logEncounterFromSession s st) ∧
   (escaped h = None ↔
    completion (logEncounterFromSession s st) = Returned tt)) ∧
  (¬ overlay_returns s → is_Some (escaped h)).
Proof.
  cbn zeta. unfold onSaveData. simpl.
  destruct (show_and_log_frame s st) as (Hrun & _ & Hdl & Hthrow).
  split; [done|].
  split; [by destruct (show_and_log s st).1.1.1|].
  split.
  { destruct (show_and_log s st).1.1.1;
      (split; [try done; by eexists | try done; by intros [? ?]]). }
  split; [done|]. split; [done|]. split.
  { intros [e He]. apply Hthrow.
    by destruct (show_and_log s st).1.1.1. }
  split.
  - intros Hret.
    destruct (show_and_log_cases s st) as [[_ E]|[Hno _]]; [|done].
    rewrite E. unfold completion. split; [done|].
    by destruct (logEncounterFromSession s st).1.1 as [[]|].
  - intros Hno.
    destruct (show_and_log_cases s st) as [[Hret _]|[_ (e & p & E)]]; [done|].
    rewrite E. simpl. by eexists.
Qed.

End ListenerProperties.

(** ** The listeners at concrete requests *)

(** With an arena the snapshot is logged, directly or nested under
    [session]; a GET does nothing. *)
Example network_listener_logs_wave5 :
  let h := onBeforeRequest species_as_is no_table party_as_is
             "POST" update_url (Returned wave5_in_arena)
             (started ten_o_clock) in
  let h' := onBeforeRequest species_as_is no_table party_as_is
              "POST" updateall_url
              (Returned (JObj (<["session" := wave5_in_arena]> ∅)))
              (started ten_o_clock) in
  let h'' := onBeforeRequest species_as_is no_table party_as_is
               "GET" update_url (Returned wave5_in_arena)
               (started ten_o_clock) in
  after h = one_logged ∧ caught h = None ∧ length (issued h) = 4%nat ∧
  after h' = one_logged ∧ caught h' = None ∧
  after h'' = started ten_o_clock ∧ issued h'' = [].
Proof. repeat split. Qed.

(** Without an arena, the snapshot that [logEncounterFromSession] would
    log is lost. *)
Example wave5_would_be_logged :
  final (logEncounterFromSession species_as_is wave5 (started ten_o_clock))
    = one_logged.
Proof. reflexivity. Qed.

Lemma encounter_is_lost_without_arena_at_wave5 :
  (nullish wave5 = false ∧
   party_as_is (get wave5 "enemyParty")
     = JArr [JObj (<["species" := JNum 25]> (<["level" := JNum 12]> ∅))] ∧
   nullish (get wave5 "arena") = true ∧
   includes "updateall" update_url = false) ∧
  after (onBeforeRequest species_as_is no_table party_as_is
           "POST" update_url (Returned wave5) (started ten_o_clock))
    = started ten_o_clock ∧
  caught (onBeforeRequest species_as_is no_table party_as_is
            "POST" update_url (Returned wave5) (started ten_o_clock))
    = Some "TypeError" ∧
  response (onSaveData species_as_is no_table party_as_is
              wave5 (started ten_o_clock)) = None.
Proof.
  split; [repeat split|].
  destruct (encounter_is_lost_without_arena species_as_is no_table
              party_as_is update_url wave5 (started ten_o_clock)
              (JObj (<["species" := JNum 25]> (<["level" := JNum 12]> ∅))) []
              ltac:(reflexivity) ltac:(reflexivity) ltac:(reflexivity))
    as (Hpost & (_ & _ & Hresponse & _) & _).
  destruct (Hpost ltac:(reflexivity)) as (Hafter & Hcaught & _).
  split; [exact Hafter|]. split; [exact Hcaught | exact Hresponse].
Defined.

(** ** Reserved fields and odd metadata at concrete sessions *)

Lemma reserved_fields_stay_at_defaults_at_an_evening :
  Forall reserved_at_defaults (encounterBuffer idle) ∧
  Forall reserved_at_defaults
    (encounterBuffer
       (perform_all species_as_is no_json no_escape (take 6 an_evening)
          idle).1) ∧
  length (encounterBuffer
            (perform_all species_as_is no_json no_escape (take 6 an_evening)
               idle).1) = 2%nat.
Proof.
  split; [apply Forall_nil_2|]. split; [|reflexivity].
  apply (reserved_fields_stay_at_defaults species_as_is no_json no_escape
           (take 6 an_evening) idle).
  apply Forall_nil_2.
Defined.

Lemma only_objects_are_merged_at_a_string :
  not_an_object (JStr "WIN") = true ∧
  endRun no_json no_escape noon (JStr "WIN") one_logged
    = endRun no_json no_escape noon (JObj ∅) one_logged ∧
  stamp_and_merge noon (JArr [JStr "WIN"; JNum 30])
    (encounterBuffer one_logged) (new_run ten_o_clock) !! "1"
    = Some (JNum 30).
Proof.
  split; [reflexivity|].
  destruct (only_objects_are_merged no_json no_escape noon (JStr "WIN")
              one_logged) as [Hsame _].
  destruct (only_objects_are_merged no_json no_escape noon
              (JArr [JStr "WIN"; JNum 30]) one_logged) as [_ Harray].
  split; [by apply Hsame|].
  exact (Harray [JStr "WIN"; JNum 30] (new_run ten_o_clock) 1%nat (JNum 30)
           eq_refl eq_refl).
Defined.
